(** * sitealyzer: the domain classification pipeline of [main.mjs]

    A shallow embedding of the record type, of the synchronous
    normalisation and exclusion stages, of the sorter, and of the four
    enrichment stages that run on every record, followed by the
    properties of the pipeline.

    Conventions of the embedding.
    - A JavaScript string is a [string] (a sequence of code units, one
      [ascii] each).
    - A property of a row that may be missing is an [option]: [None] stands
      for a property that is absent, [undefined] or [null]; all three are
      falsy and print as an empty cell.
    - The collaborators whose code lives outside the repository (the
      public-suffix parser, the collation of [localeCompare], the DNS
      resolver, the URL parser and [fetch]) are the fields of an
      environment [Env]; an [await] reads the environment. *)

From Stdlib Require Import ZArith Lia Ascii Permutation Sorted DecimalString.
From stdpp Require Import base option list strings gmap.

Local Open Scope string_scope.
Local Open Scope Z_scope.

(** ** String primitives of the host language *)

Module Js.

(** [s.startsWith(p)] *)
Definition startsWith (s p : string) : bool := String.prefix p s.

(** [s.endsWith(p)]: [p] is one of the suffixes of [s]. *)
Fixpoint endsWith (s p : string) : bool :=
  String.eqb s p ||
  match s with
  | EmptyString => false
  | String _ s' => endsWith s' p
  end.

(** [s.indexOf(p)]: the first position at which [p] occurs, or [-1]. *)
Fixpoint indexOf (s p : string) : Z :=
  if String.prefix p s then 0
  else match s with
       | EmptyString => -1
       | String _ s' => let i := indexOf s' p in if i =? -1 then -1 else i + 1
       end.

(** [s.slice(b, e)], with the negative positions counted from the end. *)
Definition slice (s : string) (b e : Z) : string :=
  let len := Z.of_nat (String.length s) in
  let from := if b <? 0 then Z.max (len + b) 0 else Z.min b len in
  let to := if e <? 0 then Z.max (len + e) 0 else Z.min e len in
  String.substring (Z.to_nat from) (Z.to_nat (Z.max (to - from) 0)) s.

(** [s.split(c)] for a separator of one code unit. *)
Fixpoint split (s : string) (c : ascii) : list string :=
  match s with
  | EmptyString => [EmptyString]
  | String a s' =>
      if Ascii.eqb a c then EmptyString :: split s' c
      else match split s' c with
           | h :: t => String a h :: t
           | [] => [String a EmptyString]
           end
  end.

(** Truthiness of a string-valued property: absent and empty are falsy. *)
Definition truthy (o : option string) : bool :=
  match o with
  | Some s => negb (String.eqb s "")
  | None => false
  end.

(** Truthiness of an object-valued property (array, mapping, error). *)
Definition truthyObj {A} (o : option A) : bool :=
  match o with Some _ => true | None => false end.

(** [o === lit] for a string-valued property. *)
Definition strictEq (o : option string) (lit : string) : bool :=
  match o with Some s => String.eqb s lit | None => false end.

(** Readings of the primitives by recursion on the string, for the
    statements: a code unit occurs in a string; the part of a string
    before the first occurrence of a code unit; a string without its last
    code unit. *)
Fixpoint occurs (c : ascii) (s : string) : bool :=
  match s with
  | EmptyString => false
  | String a s' => Ascii.eqb a c || occurs c s'
  end.

Fixpoint before (c : ascii) (s : string) : string :=
  match s with
  | EmptyString => EmptyString
  | String a s' => if Ascii.eqb a c then EmptyString else String a (before c s')
  end.

Fixpoint dropLast (s : string) : string :=
  match s with
  | EmptyString => EmptyString
  | String a EmptyString => EmptyString
  | String a s' => String a (dropLast s')
  end.

End Js.

(** ** Regular expressions

    The literals of the source use character classes, alternation,
    bounded repetition and the anchors [^] and [$] only, so each denotes a
    regular language and [test] is membership, decided by derivatives. *)

Module Re.

Inductive re : Type :=
| Void
| Eps
| Range (lo hi : ascii)
| Dot
| Cat (r1 r2 : re)
| Alt (r1 r2 : re)
| Star (r : re).

Definition code (a : ascii) : N := Ascii.N_of_ascii a.

(** The line terminators that [.] refuses (LF and CR among the code units
    below 256). *)
Definition lineTerminator (a : ascii) : bool :=
  (code a =? 10)%N || (code a =? 13)%N.

Fixpoint nullable (r : re) : bool :=
  match r with
  | Void => false
  | Eps => true
  | Range _ _ => false
  | Dot => false
  | Cat r1 r2 => nullable r1 && nullable r2
  | Alt r1 r2 => nullable r1 || nullable r2
  | Star _ => true
  end.

Definition cat (r1 r2 : re) : re :=
  match r1, r2 with
  | Void, _ => Void
  | _, Void => Void
  | Eps, _ => r2
  | _, _ => Cat r1 r2
  end.

Definition alt (r1 r2 : re) : re :=
  match r1, r2 with
  | Void, _ => r2
  | _, Void => r1
  | _, _ => Alt r1 r2
  end.

Fixpoint deriv (a : ascii) (r : re) : re :=
  match r with
  | Void => Void
  | Eps => Void
  | Range lo hi => if (code lo <=? code a)%N && (code a <=? code hi)%N then Eps else Void
  | Dot => if lineTerminator a then Void else Eps
  | Cat r1 r2 =>
      if nullable r1 then alt (cat (deriv a r1) r2) (deriv a r2)
      else cat (deriv a r1) r2
  | Alt r1 r2 => alt (deriv a r1) (deriv a r2)
  | Star r1 => cat (deriv a r1) (Star r1)
  end.

(** The whole of [s] is a word of [r]: [/^r$/.test(s)]. *)
Fixpoint fullMatch (r : re) (s : string) : bool :=
  match s with
  | EmptyString => nullable r
  | String a s' => fullMatch (deriv a r) s'
  end.

(** ** Surface syntax *)

Definition chr (a : ascii) : re := Range a a.

(** A literal run of code units. *)
Fixpoint lit (s : string) : re :=
  match s with
  | EmptyString => Eps
  | String a EmptyString => chr a
  | String a s' => Cat (chr a) (lit s')
  end.

Definition opt (r : re) : re := Alt r Eps.

Fixpoint power (r : re) (n : nat) : re :=
  match n with
  | O => Eps
  | S O => r
  | S n' => Cat r (power r n')
  end.

Fixpoint upto (r : re) (n : nat) : re :=
  match n with
  | O => Eps
  | S n' => opt (Cat r (upto r n'))
  end.

(** [r{m,n}] with [m <= n]. *)
Definition rep (r : re) (m n : nat) : re :=
  match m, (n - m)%nat with
  | O, k => upto r k
  | _, O => power r m
  | _, k => Cat (power r m) (upto r k)
  end.

(** [r{1,}] *)
Definition plus (r : re) : re := Cat r (Star r).

Fixpoint alts (rs : list re) : re :=
  match rs with
  | [] => Void
  | [r] => r
  | r :: rs' => Alt r (alts rs')
  end.

Fixpoint cats (rs : list re) : re :=
  match rs with
  | [] => Eps
  | [r] => r
  | r :: rs' => Cat r (cats rs')
  end.

(** Any code unit at all, line terminators included. *)
Definition anyUnit : re := Range Ascii.zero (Ascii.ascii_of_N 255).

(** [s.match(/r/)] is not [null] (and [/r/.test(s)]) for a literal with no
    anchor: some factor of [s] is a word of [r]. *)
Definition search (r : re) (s : string) : bool :=
  fullMatch (Cat (Star anyUnit) (Cat r (Star anyUnit))) s.

(** ** Denotation *)

(** The words of a regular expression. *)
Inductive lang : re -> string -> Prop :=
| LEps : lang Eps EmptyString
| LRange lo hi a :
    (code lo <= code a)%N -> (code a <= code hi)%N ->
    lang (Range lo hi) (String a EmptyString)
| LDot a : lineTerminator a = false -> lang Dot (String a EmptyString)
| LCat r1 r2 s1 s2 : lang r1 s1 -> lang r2 s2 -> lang (Cat r1 r2) (s1 +:+ s2)
| LAltL r1 r2 s : lang r1 s -> lang (Alt r1 r2) s
| LAltR r1 r2 s : lang r2 s -> lang (Alt r1 r2) s
| LStarNil r : lang (Star r) EmptyString
| LStarApp r s1 s2 : lang r s1 -> lang (Star r) s2 -> lang (Star r) (s1 +:+ s2).

(** Every code unit of the string satisfies [P]. *)
Fixpoint allUnits (P : ascii -> bool) (s : string) : bool :=
  match s with
  | EmptyString => true
  | String a s' => P a && allUnits P s'
  end.

(** The class [[a-f0-9]]. *)
Definition hexLower (a : ascii) : bool :=
  ((code "a" <=? code a)%N && (code a <=? code "f")%N)
  || ((code "0" <=? code a)%N && (code a <=? code "9")%N).

End Re.

(** ** Data model *)

(** A thrown or rejected value. *)
Inductive JsError : Type := MkError (message : string).

(** One entry of the answer of [dns.resolveAny]. Entries of type CNAME carry
    the alias target in [value]; the classifier reads no other entry. *)
Record DnsRecord : Type := mkDns { type : string; value : string }.

Record Row : Type := mkRow {
  Domain : string;
  Parent : option string;
  TLD : option string;
  Source : option string;
  Comment : option string;
  DNS : option (list DnsRecord);
  DNSError : option JsError;
  HTTPStatus : option Z;
  HTTPHeaders : option (gmap string string);
  HTTPBody : option string;
  HTTPError : option JsError;
  CDN : option string
}.

(** Assignments to, and deletions of, one property. *)
Definition setDomain (v : string) (r : Row) : Row :=
  mkRow v (Parent r) (TLD r) (Source r) (Comment r) (DNS r) (DNSError r)
        (HTTPStatus r) (HTTPHeaders r) (HTTPBody r) (HTTPError r) (CDN r).
Definition setParent (v : option string) (r : Row) : Row :=
  mkRow (Domain r) v (TLD r) (Source r) (Comment r) (DNS r) (DNSError r)
        (HTTPStatus r) (HTTPHeaders r) (HTTPBody r) (HTTPError r) (CDN r).
Definition setTLD (v : option string) (r : Row) : Row :=
  mkRow (Domain r) (Parent r) v (Source r) (Comment r) (DNS r) (DNSError r)
        (HTTPStatus r) (HTTPHeaders r) (HTTPBody r) (HTTPError r) (CDN r).
Definition setSource (v : option string) (r : Row) : Row :=
  mkRow (Domain r) (Parent r) (TLD r) v (Comment r) (DNS r) (DNSError r)
        (HTTPStatus r) (HTTPHeaders r) (HTTPBody r) (HTTPError r) (CDN r).
Definition setComment (v : option string) (r : Row) : Row :=
  mkRow (Domain r) (Parent r) (TLD r) (Source r) v (DNS r) (DNSError r)
        (HTTPStatus r) (HTTPHeaders r) (HTTPBody r) (HTTPError r) (CDN r).
Definition setDNS (v : option (list DnsRecord)) (r : Row) : Row :=
  mkRow (Domain r) (Parent r) (TLD r) (Source r) (Comment r) v (DNSError r)
        (HTTPStatus r) (HTTPHeaders r) (HTTPBody r) (HTTPError r) (CDN r).
Definition setDNSError (v : option JsError) (r : Row) : Row :=
  mkRow (Domain r) (Parent r) (TLD r) (Source r) (Comment r) (DNS r) v
        (HTTPStatus r) (HTTPHeaders r) (HTTPBody r) (HTTPError r) (CDN r).
Definition setHTTPStatus (v : option Z) (r : Row) : Row :=
  mkRow (Domain r) (Parent r) (TLD r) (Source r) (Comment r) (DNS r) (DNSError r)
        v (HTTPHeaders r) (HTTPBody r) (HTTPError r) (CDN r).
Definition setHTTPHeaders (v : option (gmap string string)) (r : Row) : Row :=
  mkRow (Domain r) (Parent r) (TLD r) (Source r) (Comment r) (DNS r) (DNSError r)
        (HTTPStatus r) v (HTTPBody r) (HTTPError r) (CDN r).
Definition setHTTPBody (v : option string) (r : Row) : Row :=
  mkRow (Domain r) (Parent r) (TLD r) (Source r) (Comment r) (DNS r) (DNSError r)
        (HTTPStatus r) (HTTPHeaders r) v (HTTPError r) (CDN r).
Definition setHTTPError (v : option JsError) (r : Row) : Row :=
  mkRow (Domain r) (Parent r) (TLD r) (Source r) (Comment r) (DNS r) (DNSError r)
        (HTTPStatus r) (HTTPHeaders r) (HTTPBody r) v (CDN r).
Definition setCDN (v : option string) (r : Row) : Row :=
  mkRow (Domain r) (Parent r) (TLD r) (Source r) (Comment r) (DNS r) (DNSError r)
        (HTTPStatus r) (HTTPHeaders r) (HTTPBody r) (HTTPError r) v.

(** The row that the reader builds from a line with the one column Domain. *)
Definition freshRow (d : string) : Row :=
  mkRow d None None None None None None None None None None None.

(** [row.Source === 'Excluded'] *)
Definition isExcluded (r : Row) : bool := Js.strictEq (Source r) "Excluded".

(** ** The collaborators outside the repository *)

(** The answer of [psl.parse]: [domain] and [tld], each a string or [null]. *)
Record Psl : Type := mkPsl { domain : option string; tld : option string }.

(** A fetched response: [status], the entries of [headers], and what
    awaiting [text()] gives. *)
Record Response : Type := mkResponse {
  status : Z;
  headers : list (string * string);
  text : JsError + string
}.

Record Env : Type := mkEnv {
  (** [psl.parse(domain)] *)
  pslParse : string -> Psl;
  (** [l.localeCompare(r)]: negative, zero or positive *)
  localeCompare : string -> string -> Z;
  (** [await dns.resolveAny(domain)]: rejects with [inl], resolves with [inr] *)
  resolveAny : string -> JsError + list DnsRecord;
  (** [new URL(href)]: throws with [inl], otherwise the parsed href *)
  newURL : string -> JsError + string;
  (** [await fetch(url, { redirect: 'manual' })] *)
  fetch : string -> JsError + Response
}.

(** ** Synchronous stages *)

Definition portComment : string :=
  "Cloudflare includes ports that are non-productive, we exclude these domains".
Definition pathComment : string := "Removed path from domain".
Definition devComment : string := "Development domain excluded".
Definition ipComment : string := "IP address excluded".

Definition cleanupTrailingDot (row : Row) : Row :=
  if Js.endsWith (Domain row) "."
  then setDomain (Js.slice (Domain row) 0 (-1)) row
  else row.

Definition flagPorts (row : Row) : Row :=
  let row :=
    if Js.indexOf (Domain row) ":" >? -1
    then setComment (Some portComment) (setSource (Some "Excluded") row)
    else row in
  if Js.indexOf (Domain row) "/" >? -1
  then setComment (Some pathComment)
         (setDomain (hd EmptyString (Js.split (Domain row) "/")) row)
  else row.

Definition devParents : list string :=
  [ "workers.dev"; "web.pfizer"; "templates.pfizer"; "oastify.com";
    "ngrok-free.app"; "impactful-1.site"; "impactful-2.site";
    "impactful-3.site"; "impactful-4.site"; "impactful-5.site";
    "hlx-1.page"; "hlx-4.page"; "helix3.dev"; "helix3.page"; "github.com";
    "github.dev"; "franklin.pfizer"; "fastlydemo.net"; "fastly.net";
    "fastly-aem.page"; "cloudfront.net"; "bing.com"; "aem.page";
    "aem.reviews"; "aem.live"; "adobeio-static.net"; "adobeaemcloud.com";
    "adobe.pfizer"; "adobe.net"; "azurefd.net"; "us-1.magentosite.cloud";
    "us-2.magentosite.cloud"; "us-3.magentosite.cloud";
    "us-4.magentosite.cloud" ].

(** [list.includes(v)] for a string-valued property [v]. *)
Definition includes (l : list string) (v : option string) : bool :=
  match v with
  | Some s => existsb (String.eqb s) l
  | None => false
  end.

Definition flagDev (row : Row) : Row :=
  if includes devParents (Parent row) || includes devParents (TLD row)
  then setComment (Some devComment) (setSource (Some "Excluded") row)
  else row.

Definition flagParent (env : Env) (row : Row) : Row :=
  if isExcluded row then row
  else
    let row := setParent (domain (pslParse env (Domain row))) row in
    setTLD (tld (pslParse env (Domain row))) row.

(** The two literals of [flagIP]. *)
Module IP.
Import Re.

Definition digit : re := Range "0" "9".
Definition hex : re := alts [Range "0" "9"; Range "a" "f"; Range "A" "F"].
Definition alnum : re := alts [Range "0" "9"; Range "a" "z"; Range "A" "Z"].

(** [(?:25[0-5]|2[0-4][0-9]|[01]?[0-9][0-9]?)] *)
Definition octet : re :=
  alts [ cats [lit "25"; Range "0" "5"];
         cats [chr "2"; Range "0" "4"; digit];
         cats [opt (Range "0" "1"); digit; opt digit] ].

Definition ipv4Regex : re := Cat (rep (Cat octet (chr ".")) 3 3) octet.

(** [[0-9a-fA-F]{1,4}], then the same followed, or preceded, by a colon *)
Definition h4 : re := rep hex 1 4.
Definition h4c : re := Cat h4 (chr ":").
Definition ch4 : re := Cat (chr ":") h4.

(** [(25[0-5]|(2[0-4]|1{0,1}[0-9]){0,1}[0-9])] *)
Definition octet6 : re :=
  Alt (cats [lit "25"; Range "0" "5"])
      (Cat (rep (Alt (Cat (chr "2") (Range "0" "4"))
                     (Cat (rep (chr "1") 0 1) digit)) 0 1)
           digit).

Definition dotted6 : re := Cat (rep (Cat octet6 (chr ".")) 3 3) octet6.

Definition ipv6Regex : re :=
  alts [ Cat (rep h4c 7 7) h4;
         Cat (rep h4c 1 7) (chr ":");
         cats [rep h4c 1 6; chr ":"; h4];
         Cat (rep h4c 1 5) (rep ch4 1 2);
         Cat (rep h4c 1 4) (rep ch4 1 3);
         Cat (rep h4c 1 3) (rep ch4 1 4);
         Cat (rep h4c 1 2) (rep ch4 1 5);
         cats [h4; chr ":"; rep ch4 1 6];
         Cat (chr ":") (Alt (rep ch4 1 7) (chr ":"));
         cats [lit "fe80:"; rep (Cat (chr ":") (rep hex 0 4)) 0 4; chr "%";
               plus alnum];
         cats [lit "::";
               rep (cats [lit "ffff"; rep (Cat (chr ":") (rep (chr "0") 1 4)) 0 1;
                          chr ":"]) 0 1;
               dotted6];
         cats [rep h4c 1 4; chr ":"; dotted6] ].

End IP.

Definition flagIP (row : Row) : Row :=
  if isExcluded row then row
  else if Re.fullMatch IP.ipv4Regex (Domain row)
          || Re.fullMatch IP.ipv6Regex (Domain row)
  then setComment (Some ipComment) (setSource (Some "Excluded") row)
  else row.

(** ** The sorter *)

(** The comparator handed to [sort]. *)
Definition compareParent (env : Env) (l r : Row) : Z :=
  if negb (Js.truthy (Parent l)) && negb (Js.truthy (Parent r)) then 0
  else if negb (Js.truthy (Parent l)) then 1
  else if negb (Js.truthy (Parent r)) then -1
  else localeCompare env (default EmptyString (Parent l))
                         (default EmptyString (Parent r)).

(** [Array.prototype.sort] is stable: an element moves in front of the
    elements that compare greater and stays behind those that compare equal
    or smaller. For a consistent comparator that fixes the result, which is
    computed here by insertion from the right. *)
Fixpoint insertBy {A} (cmp : A -> A -> Z) (x : A) (l : list A) : list A :=
  match l with
  | [] => [x]
  | y :: l' => if cmp x y <=? 0 then x :: l else y :: insertBy cmp x l'
  end.

Fixpoint sortBy {A} (cmp : A -> A -> Z) (l : list A) : list A :=
  match l with
  | [] => []
  | x :: l' => insertBy cmp x (sortBy cmp l')
  end.

(** ** Promises

    A settled promise. [await] of a rejected promise rethrows, so a stage
    that awaits its argument passes a rejection on. *)

Inductive Promise (A : Type) : Type :=
| Fulfilled (a : A)
| Rejected (e : JsError).
Arguments Fulfilled {A} a.
Arguments Rejected {A} e.

Definition await {A B} (p : Promise A) (k : A -> Promise B) : Promise B :=
  match p with
  | Fulfilled a => k a
  | Rejected e => Rejected e
  end.

Notation "'let*' x ':=' 'await' p 'in' k" := (await p (fun x => k))
  (at level 10, x name, p at level 100, k at level 200).

(** [Promise.all]: the values in order, or a rejection if any promise is
    rejected (of the rejected ones, the first of the list is reported). *)
Fixpoint promiseAll {A} (ps : list (Promise A)) : Promise (list A) :=
  match ps with
  | [] => Fulfilled []
  | p :: ps' =>
      let* a := await p in
      let* l := await promiseAll ps' in
      Fulfilled (a :: l)
  end.

(** ** Enrichment stages *)

Definition enrichDNS (env : Env) (row : Row) : Promise Row :=
  if isExcluded row then Fulfilled row
  else match resolveAny env (Domain row) with
       | inr answer => Fulfilled (setDNS (Some answer) row)
       | inl e => Fulfilled (setDNSError (Some e) row)
       end.

(** [Object.fromEntries]: a later entry replaces an earlier one of the same
    name. *)
Definition fromEntries (es : list (string * string)) : gmap string string :=
  fold_left (fun m e => <[e.1 := e.2]> m) es ∅.

(** [row.HTTPHeaders[name]] *)
Definition header (row : Row) (name : string) : option string :=
  match HTTPHeaders row with
  | Some h => h !! name
  | None => None
  end.

Definition enrichHTTPS (env : Env) (rowpromise : Promise Row) : Promise Row :=
  let* row := await rowpromise in
  if isExcluded row then Fulfilled row
  else
    match newURL env ("https://" +:+ Domain row) with
    | inl e => Rejected e
    | inr url =>
        match fetch env url with
        | inl e => Fulfilled (setHTTPError (Some e) row)
        | inr res =>
            let row := setHTTPStatus (Some (status res)) row in
            let row := setHTTPHeaders (Some (fromEntries (headers res))) row in
            if (status res =? 200)
               && match header row "content-type" with
                  | Some ct => Js.startsWith ct "text/html"
                  | None => false
                  end
            then match text res with
                 | inr body => Fulfilled (setHTTPBody (Some body) row)
                 | inl e => Fulfilled (setHTTPError (Some e) row)
                 end
            else Fulfilled row
        end
    end.

Record Cdn : Type := mkCdn { pattern : string; cdn : string }.

Definition cdns : list Cdn :=
  [ mkCdn ".cdn.cloudflare.net" "Cloudflare";
    mkCdn ".edgekey.net" "Akamai";
    mkCdn ".edgesuite.net" "Akamai";
    mkCdn ".magentocloud.map.fastly.net" "Adobe Commerce";
    mkCdn ".fastly.net" "Fastly";
    mkCdn ".adobeaemcloud.com" "AEM Cloud Service";
    mkCdn ".cloudfront.net" "Cloudfront";
    mkCdn ".azurefd.net" "Azure Front Door";
    mkCdn ".azureedge.net" "Azure Front Door";
    mkCdn ".gammacdn.net" "Edgio";
    mkCdn ".abbottapps.net" "Abbott Apps";
    mkCdn ".cdngslb.com" "Alibaba Cloud";
    mkCdn ".induscdn.com" "Indus CDN";
    mkCdn ".impervadns.net" "Imperva";
    mkCdn ".rbzdns.com" "Rackspace";
    mkCdn ".kxcdn.com" "KeyCDN";
    mkCdn ".c10r.facebook.com" "Facebook";
    mkCdn ".radwarecloud.net" "Radware Cloud";
    mkCdn ".edgekey-staging.net" "Akamai";
    mkCdn ".azurewebsites.net" "Azure Web Apps";
    mkCdn ".x.incapdns.net" "Incapsula";
    mkCdn ".onelink-translations.com" "OneLink";
    mkCdn ".trafficmanager.net" "Azure";
    mkCdn ".trafficdirector.pfizer.net" "Pfizer Traffic Director";
    mkCdn ".wpengine.com" "WP Engine";
    mkCdn ".omicroncdn.net" "Omicron CDN";
    mkCdn ".vercel-dns.com" "Vercel";
    mkCdn ".nucdn.net" "NuCDN";
    mkCdn ".lighthouselabs.eu" "Lighthouse Labs";
    mkCdn ".github.io" "GitHub Pages" ].

Definition isCNAME (d : DnsRecord) : bool := String.eqb (type d) "CNAME".

(** [cdns.find(cdn => dns.value.endsWith(cdn.pattern))] and the provider of
    the entry found *)
Definition matchedCDN (d : DnsRecord) : option string :=
  cdn <$> List.find (fun c => Js.endsWith (value d) (pattern c)) cdns.

(** The callback of the [reduce] over the CNAME entries. *)
Definition reduceCDN (result : option string) (d : DnsRecord) : option string :=
  if Js.truthy result then result else matchedCDN d.

Definition flagCDN (rowpromise : Promise Row) : Promise Row :=
  let* row := await rowpromise in
  if isExcluded row then Fulfilled row
  else
    match DNS row with
    | None => Fulfilled row
    | Some answer =>
        let row :=
          setCDN (fold_left reduceCDN (List.filter isCNAME answer) None) row in
        let row :=
          if negb (Js.truthy (CDN row)) && Js.truthyObj (HTTPHeaders row)
             && Js.strictEq (header row "server") "cloudflare"
          then setCDN (Some "Cloudflare") row
          else row in
        let row :=
          if negb (Js.truthy (CDN row)) && Js.truthyObj (DNSError row)
          then setCDN (Some "DNS Error") row
          else if negb (Js.truthy (CDN row))
                  && Js.truthyObj (List.find isCNAME answer)
          then setCDN (Some ("Unknown CDN "
                             +:+ from_option value "undefined"
                                   (List.find isCNAME answer))) row
          else row in
        Fulfilled (setDNS None row)
    end.

(** The three fingerprints of [enrichHTML]. *)
Module Fingerprint.
Import Re.

(** [/\/media_[a-f0-9]{40}/] *)
Definition helix : re :=
  Cat (lit "/media_") (rep (Alt (Range "a" "f") (Range "0" "9")) 40 40).

(** [/\/etc.clientlibs\//] *)
Definition aem : re := cats [lit "/etc"; Dot; lit "clientlibs/"].

(** [/\/\.rum\/@adobe\/helix-rum-js/] *)
Definition rum : re := lit "/.rum/@adobe/helix-rum-js".

End Fingerprint.

Definition enrichHTML (rowpromise : Promise Row) : Promise Row :=
  let* row := await rowpromise in
  if isExcluded row then Fulfilled row
  else if negb (Js.truthy (HTTPBody row))
  then Fulfilled (setSource (Some "Unverified") row)
  else
    let body := default EmptyString (HTTPBody row) in
    if Re.search Fingerprint.helix body
    then Fulfilled (setHTTPHeaders None (setHTTPBody None (setSource (Some "Helix") row)))
    else if Re.search Fingerprint.aem body
    then Fulfilled (setHTTPHeaders None (setHTTPBody None (setSource (Some "AEM") row)))
    else if Re.search Fingerprint.rum body
    then Fulfilled (setSource (Some "RUM") row)
    else Fulfilled (setSource (Some "Other") row).

(** ** The pipeline *)

(** The synchronous stages, in the order of the [map] calls. *)
Definition prepare (env : Env) (row : Row) : Row :=
  flagDev (flagParent env (flagIP (flagPorts (cleanupTrailingDot row)))).

(** The chain of promises that the four asynchronous [map] calls build for
    one row. *)
Definition enrich (env : Env) (row : Row) : Promise Row :=
  enrichHTML (flagCDN (enrichHTTPS env (enrichDNS env row))).

(** [cleaned]: the first parsed row is dropped, the rest is prepared, sorted
    and enriched, and the promises are joined. *)
Definition cleaned (env : Env) (csvData : list Row) : Promise (list Row) :=
  promiseAll
    (map (enrich env)
       (sortBy (compareParent env) (map (prepare env) (drop 1 csvData)))).

(** The normaliser on a bare domain: the first two stages. *)
Definition normalize (d : string) : string :=
  Domain (flagPorts (cleanupTrailingDot (freshRow d))).

(** ** The reader

    [readCSVFromStdin]: the lines that [readline] delivers, split into
    fields; the first line gives the property names of the objects built
    from the others. An object of the reader is a finite map from names to
    strings. *)

Module Reader.

Definition tab : ascii := Ascii.ascii_of_N 9.

(** The class [[ \t,;]] of the separator [/[ \t,;]+/]. *)
Definition delimiter : Re.re :=
  Re.alts [Re.chr " "; Re.chr tab; Re.chr ","; Re.chr ";"].

Definition isDelimiter (a : ascii) : bool :=
  Re.fullMatch delimiter (String a EmptyString).

(** [line.split(/[ \t,;]+/)]: the parts of the line between the maximal
    runs of delimiters. [inRun] tells that the code unit before was a
    delimiter, so that the run it belongs to has already ended a field. *)
Fixpoint fieldsFrom (inRun : bool) (line : string) : list string :=
  match line with
  | EmptyString => [EmptyString]
  | String a rest =>
      if isDelimiter a
      then if inRun then fieldsFrom true rest
           else EmptyString :: fieldsFrom true rest
      else match fieldsFrom false rest with
           | field :: fields => String a field :: fields
           | [] => [String a EmptyString]
           end
  end.

Definition splitLine (line : string) : list string := fieldsFrom false line.

(** [headers[i]] as a property name: a missing header is [undefined], whose
    name is "undefined". *)
Definition headerName (headers : list string) (i : nat) : string :=
  default "undefined" (headers !! i).

(** [acc[name] = cur] on an object that started as [{}], for a string [cur]:
    the own property is written, except for the name [__proto__], where the
    assignment runs the setter of the prototype, which ignores a string and
    leaves the object without such a property. *)
Definition setProperty (acc : gmap string string) (name cur : string) :
    gmap string string :=
  if String.eqb name "__proto__" then acc else <[name := cur]> acc.

(** [row.reduce((acc, cur, i) => { acc[headers[i]] = cur; return acc; }, {})],
    from index [i] on. *)
Fixpoint reduceRow (headers : list string) (i : nat) (row : list string)
    (acc : gmap string string) : gmap string string :=
  match row with
  | [] => acc
  | cur :: rest => reduceRow headers (S i) rest (setProperty acc (headerName headers i) cur)
  end.

(** What the promise of [readCSVFromStdin] resolves to when the input has
    the given lines. *)
Definition readCSVFromStdin (lines : list string) : list (gmap string string) :=
  match map splitLine lines with
  | [] => []
  | headers :: csvData => map (fun row => reduceRow headers 0 row ∅) csvData
  end.

End Reader.

(** ** The TSV writer

    [toTSV] works on any objects. A property value is one of the kinds
    that [typeof] and [||] tell apart; an object (an array, an error, a
    mapping) is carried with the text that [JSON.stringify] gives for it,
    and a number is an integer of magnitude below 10^21, which prints in
    plain decimal. An object is the finite map of its own properties; the
    properties that it inherits are not part of it, so the model speaks for
    the reads of names outside [inheritedNames]. *)

Module Writer.

Inductive JsValue : Type :=
| VUndefined
| VNull
| VBoolean (b : bool)
| VNumber (n : Z)
| VString (s : string)
| VObject (json : string).

Definition newline : ascii := Ascii.ascii_of_N 10.

(** [typeof v === 'object'] *)
Definition typeofObject (v : JsValue) : bool :=
  match v with
  | VNull | VObject _ => true
  | _ => false
  end.

(** [JSON.stringify(v)] for a value whose [typeof] is ['object']. *)
Definition stringify (v : JsValue) : string :=
  match v with
  | VObject json => json
  | _ => "null"
  end.

(** The text that [join] makes of [v || '']. *)
Definition orEmpty (v : JsValue) : string :=
  match v with
  | VUndefined | VNull => EmptyString
  | VBoolean b => if b then "true" else EmptyString
  | VNumber n => if n =? 0 then EmptyString else NilZero.string_of_int (Z.to_int n)
  | VString s => s
  | VObject json => "[object Object]"
  end.

(** The callback of [columns.map]. *)
Definition cell (obj : gmap string JsValue) (col : string) : string :=
  let v := default VUndefined (obj !! col) in
  if typeofObject v then stringify v else orEmpty v.

(** [parts.join(sep)] for an array of strings. *)
Fixpoint join (sep : string) (parts : list string) : string :=
  match parts with
  | [] => EmptyString
  | [p] => p
  | p :: rest => p +:+ sep +:+ join sep rest
  end.

Definition toTSV (arrOfObjects : list (gmap string JsValue))
    (columns : list string) : string :=
  fold_left
    (fun tsv obj =>
       tsv +:+ join (String Reader.tab EmptyString) (map (cell obj) columns)
           +:+ String newline EmptyString)
    arrOfObjects
    (join (String Reader.tab EmptyString) columns +:+ String newline EmptyString).

Definition columns : list string :=
  ["Domain"; "Parent"; "Source"; "CDN"; "HTTPStatus"; "Comment"].

End Writer.

(** ** Vocabulary of the statements *)

(** A code unit that is no delimiter of the reader. *)
Definition nonDelimiter (a : ascii) : bool := negb (Reader.isDelimiter a).

(** Every word of [r] holds the code unit [c]: a sufficient check on the
    shape of the expression. *)
Fixpoint mustContain (c : ascii) (r : Re.re) : bool :=
  match r with
  | Re.Void => true
  | Re.Eps => false
  | Re.Range lo hi => Ascii.eqb lo c && Ascii.eqb hi c
  | Re.Dot => false
  | Re.Cat r1 r2 => mustContain c r1 || mustContain c r2
  | Re.Alt r1 r2 => mustContain c r1 && mustContain c r2
  | Re.Star _ => false
  end.

(** The decimal numeral of a number. *)
Definition decimal (n : nat) : string := NilZero.string_of_uint (Nat.to_uint n).

(** The response is a 200 that declares HTML: the condition under which
    [enrichHTTPS] reads the body. *)
Definition declaresHTML (res : Response) : bool :=
  (status res =? 200)
  && match fromEntries (headers res) !! "content-type" with
     | Some ct => Js.startsWith ct "text/html"
     | None => false
     end.

(** What the three fingerprints look for, said of the strings: the path
    [/media_] with forty code units of [[a-f0-9]]; the path [/etc], one code
    unit that is no line terminator, [clientlibs/]; the script path of the
    RUM library. *)
Definition hasHelixPath (body : string) : Prop :=
  exists pre h post,
    body = pre +:+ "/media_" +:+ h +:+ post
    /\ String.length h = 40%nat /\ Re.allUnits Re.hexLower h = true.

Definition hasClientlibsPath (body : string) : Prop :=
  exists pre c post,
    body = pre +:+ "/etc" +:+ String c "clientlibs/" +:+ post
    /\ Re.lineTerminator c = false.

Definition hasRumScript (body : string) : Prop :=
  exists pre post, body = pre +:+ "/.rum/@adobe/helix-rum-js" +:+ post.

(** The number of occurrences of a code unit in a string. *)
Fixpoint countUnit (c : ascii) (s : string) : nat :=
  match s with
  | EmptyString => O
  | String a s' => (if Ascii.eqb a c then 1 else 0) + countUnit c s'
  end.

(** A text without tab and without newline. *)
Definition oneCell (s : string) : Prop :=
  countUnit Reader.tab s = O /\ countUnit Writer.newline s = O.

(** The text made of the given lines, each ended by a newline. *)
Fixpoint concatLines (lines : list string) : string :=
  match lines with
  | [] => EmptyString
  | l :: rest => l +:+ String Writer.newline EmptyString +:+ concatLines rest
  end.

(** The property names that every object inherits from the prototype of
    objects: a read of one of them finds a value also on an object that has
    no such property of its own. *)
Definition inheritedNames : list string :=
  [ "constructor"; "__defineGetter__"; "__defineSetter__"; "hasOwnProperty";
    "__lookupGetter__"; "__lookupSetter__"; "isPrototypeOf";
    "propertyIsEnumerable"; "toString"; "valueOf"; "__proto__";
    "toLocaleString" ].

(** A comparator orders consistently when "not after" is total and
    transitive. *)
Definition consistent {A} (cmp : A -> A -> Z) : Prop :=
  (forall a b, cmp a b <= 0 \/ cmp b a <= 0)
  /\ (forall a b c, cmp a b <= 0 -> cmp b c <= 0 -> cmp a c <= 0).

(** The outcome that the fingerprints of a body call for: Helix before AEM
    before RUM, and Other when none is found. *)
Definition byFingerprint (body : string) (row' : Row) : Prop :=
  if Re.search Fingerprint.helix body
  then Source row' = Some "Helix" /\ HTTPBody row' = None /\ HTTPHeaders row' = None
  else if Re.search Fingerprint.aem body
  then Source row' = Some "AEM"
  else if Re.search Fingerprint.rum body
  then Source row' = Some "RUM"
  else Source row' = Some "Other".

(** ** Scenarios

    Concrete collaborators and rows, for the examples that accompany the
    properties. *)

Module Scenario.

(** Comparison by code units: a consistent collation. *)
Definition codeUnitCompare (a b : string) : Z :=
  if String.leb a b then (if String.leb b a then 0 else -1) else 1.

(** A stand-in for the public-suffix parser on names of two labels under
    [com]: the whole name is the registrable domain. *)
Definition pslTwoLabels (d : string) : Psl := mkPsl (Some d) (Some "com").

(** A 200 response that declares HTML, with the given outcome of [text()]. *)
Definition htmlResponse (body : JsError + string) : Response :=
  mkResponse 200 [("content-type", "text/html; charset=utf-8")] body.

(** A network in which every resolution gives [answer] and every request
    gives [res]; every href parses. *)
Definition network (answer : JsError + list DnsRecord)
    (res : JsError + Response) : Env :=
  mkEnv pslTwoLabels codeUnitCompare (fun _ => answer) (fun href => inr href)
        (fun _ => res).

Definition notFound : JsError := MkError "queryAny ENOTFOUND".
Definition fetchFailed : JsError := MkError "fetch failed".

End Scenario.

(** A URL parser that refuses the empty host and nothing else, and a
    network around it in which every resolution and every request fails. *)
Definition refuseEmptyHost (href : string) : JsError + string :=
  if String.eqb href "https://" then inl (MkError "Invalid URL") else inr href.

Definition offline : Env :=
  mkEnv Scenario.pslTwoLabels Scenario.codeUnitCompare
        (fun _ => inl Scenario.notFound) refuseEmptyHost
        (fun _ => inl Scenario.fetchFailed).

(** * Properties *)

(** ** Facts about the string primitives *)

Module JsFacts.
Import Js.

Lemma prefix_empty s : String.prefix EmptyString s = true.
Proof. by destruct s. Qed.

Lemma indexOf_lower s p : -1 <= indexOf s p.
Proof.
  induction s as [|a s IH]; cbn [indexOf].
  - destruct (String.prefix p EmptyString); lia.
  - destruct (String.prefix p (String a s)); [lia|].
    destruct (Z.eqb_spec (indexOf s p) (-1)); lia.
Qed.

Lemma indexOf_unit c s :
  (indexOf s (String c EmptyString) >? -1) = occurs c s.
Proof.
  induction s as [|a s IH]; [done|].
  cbn [indexOf occurs String.prefix].
  destruct (ascii_dec c a) as [->|Hne].
  - rewrite prefix_empty, Ascii.eqb_refl. done.
  - assert (Ascii.eqb a c = false) as -> by (apply Ascii.eqb_neq; congruence).
    rewrite <- IH. pose proof (indexOf_lower s (String c EmptyString)).
    destruct (Z.eqb_spec (indexOf s (String c EmptyString)) (-1)) as [->|]; simpl.
    + done.
    + rewrite !Z.gtb_ltb. destruct (Z.ltb_spec (-1) (indexOf s (String c EmptyString) + 1));
        destruct (Z.ltb_spec (-1) (indexOf s (String c EmptyString))); lia || done.
Qed.

Lemma split_hd s c : hd EmptyString (split s c) = before c s.
Proof.
  induction s as [|a s IH]; [done|]. simpl.
  destruct (Ascii.eqb a c); [done|].
  destruct (split s c); simpl in *; by rewrite <- IH.
Qed.

Lemma occurs_before c s : occurs c (before c s) = false.
Proof.
  induction s as [|a s IH]; [done|]. simpl.
  destruct (Ascii.eqb a c) eqn:E; [done|]. simpl. by rewrite E.
Qed.

Lemma before_split c s :
  occurs c s = true -> exists rest, s = before c s +:+ String c rest.
Proof.
  induction s as [|a s IH]; [done|]. simpl.
  destruct (Ascii.eqb_spec a c) as [->|Hne]; simpl.
  - intros _. by exists s.
  - intros [rest Hr]%IH. exists rest.
    change (String a s = String a (before c s +:+ String c rest)). by f_equal.
Qed.

Lemma slice_dropLast s : slice s 0 (-1) = dropLast s.
Proof.
  unfold slice. cbn [Z.ltb Z.compare].
  replace (Z.to_nat (Z.min 0 (Z.of_nat (String.length s)))) with O by lia.
  replace (Z.to_nat _) with (Nat.pred (String.length s)) by lia.
  induction s as [|a s IH]; [done|].
  destruct s as [|b s]; [done|].
  change (dropLast (String a (String b s))) with (String a (dropLast (String b s))).
  rewrite <- IH. done.
Qed.

Lemma occurs_dropLast c s : occurs c s = false -> occurs c (dropLast s) = false.
Proof.
  induction s as [|a s IH]; [done|].
  destruct s as [|b s]; [done|].
  change (dropLast (String a (String b s))) with (String a (dropLast (String b s))).
  cbn [occurs] in *. intros [-> H]%orb_false_iff. by rewrite IH.
Qed.

Lemma dropLast_length s :
  s <> EmptyString -> (String.length (dropLast s) < String.length s)%nat.
Proof.
  induction s as [|a s IH]; [done|]. intros _.
  destruct s as [|b s]; [simpl; lia|].
  change (dropLast (String a (String b s))) with (String a (dropLast (String b s))).
  cbn [String.length]. apply -> Nat.succ_lt_mono. by apply IH.
Qed.

Lemma dropLast_neq s : s <> EmptyString -> dropLast s <> s.
Proof.
  intros H%dropLast_length E. rewrite E in H. lia.
Qed.

Lemma endsWith_empty s : endsWith s EmptyString = true.
Proof.
  induction s as [|a s IH]; [done|]. simpl. by rewrite IH.
Qed.

Lemma endsWith_nonempty s p :
  endsWith s p = true -> p <> EmptyString -> s <> EmptyString.
Proof.
  intros H Hp ->. by destruct p.
Qed.

Lemma endsWith_refl s : endsWith s s = true.
Proof. destruct s; cbn [endsWith]; by rewrite String.eqb_refl. Qed.

(** [endsWith] is what its name says. *)
Lemma endsWith_spec s p : endsWith s p = true <-> exists u, s = u +:+ p.
Proof.
  split.
  - induction s as [|a s IH]; cbn [endsWith].
    + rewrite orb_false_r. intros ->%String.eqb_eq. by exists EmptyString.
    + intros [->%String.eqb_eq | [u ->]%IH]%orb_true_iff.
      * by exists EmptyString.
      * by exists (String a u).
  - intros [u ->]. induction u as [|a u IH].
    + apply endsWith_refl.
    + change (String a u +:+ p) with (String a (u +:+ p)).
      cbn [endsWith]. by rewrite IH, orb_true_r.
Qed.


End JsFacts.

(** ** Facts about the regular expressions *)

Module ReFacts.
Import Re.

Lemma app_cons a s t : String a s +:+ t = String a (s +:+ t).
Proof. reflexivity. Qed.

Lemma app_nil_l t : EmptyString +:+ t = t.
Proof. reflexivity. Qed.

Lemma app_nil_r s : s +:+ EmptyString = s.
Proof. induction s as [|a s IH]; [done|]. rewrite !app_cons. by rewrite IH. Qed.

Lemma app_assoc s1 s2 s3 : (s1 +:+ s2) +:+ s3 = s1 +:+ (s2 +:+ s3).
Proof. induction s1 as [|a s IH]; [done|]. rewrite !app_cons. by rewrite IH. Qed.

Lemma app_eq_nil s1 s2 :
  s1 +:+ s2 = EmptyString -> s1 = EmptyString /\ s2 = EmptyString.
Proof. by destruct s1. Qed.

Lemma lang_Void_inv s : lang Void s <-> False.
Proof. split; [inversion 1|done]. Qed.

Lemma lang_Eps_inv s : lang Eps s <-> s = EmptyString.
Proof. split; [by inversion 1|intros ->; constructor]. Qed.

Lemma lang_Range_inv lo hi s :
  lang (Range lo hi) s <->
  exists a, s = String a EmptyString /\ (code lo <= code a)%N /\ (code a <= code hi)%N.
Proof.
  split.
  - inversion 1; subst. eauto.
  - intros (a & -> & H1 & H2). by constructor.
Qed.

Lemma lang_Dot_inv s :
  lang Dot s <-> exists a, s = String a EmptyString /\ lineTerminator a = false.
Proof.
  split.
  - inversion 1; subst. eauto.
  - intros (a & -> & H1). by constructor.
Qed.

Lemma lang_Cat_inv r1 r2 s :
  lang (Cat r1 r2) s <-> exists s1 s2, s = s1 +:+ s2 /\ lang r1 s1 /\ lang r2 s2.
Proof.
  split.
  - inversion 1; subst. eauto.
  - intros (s1 & s2 & -> & H1 & H2). by constructor.
Qed.

Lemma lang_Alt_inv r1 r2 s : lang (Alt r1 r2) s <-> lang r1 s \/ lang r2 s.
Proof.
  split.
  - inversion 1; subst; auto.
  - intros [H|H]; [by apply LAltL|by apply LAltR].
Qed.

Lemma nullable_lang r : nullable r = true <-> lang r EmptyString.
Proof.
  induction r as [| | | |r1 IH1 r2 IH2|r1 IH1 r2 IH2|r IH]; simpl.
  - by rewrite lang_Void_inv.
  - by rewrite lang_Eps_inv.
  - rewrite lang_Range_inv. split; [done|]. by intros (a & ? & _).
  - rewrite lang_Dot_inv. split; [done|]. by intros (a & ? & _).
  - rewrite andb_true_iff, IH1, IH2, lang_Cat_inv. split.
    + intros [H1 H2]. by exists EmptyString, EmptyString.
    + intros (s1 & s2 & E & H1 & H2). symmetry in E.
      apply app_eq_nil in E as [-> ->]. done.
  - by rewrite orb_true_iff, IH1, IH2, lang_Alt_inv.
  - split; [constructor|done].
Qed.

Lemma lang_Cat_Eps r s : lang (Cat Eps r) s <-> lang r s.
Proof.
  rewrite lang_Cat_inv. split.
  - by intros (s1 & s2 & -> & ->%lang_Eps_inv & H).
  - intros H. exists EmptyString, s. split; [done|]. split; [constructor|done].
Qed.

Lemma lang_Cat_Void_l r s : lang (Cat Void r) s <-> False.
Proof.
  rewrite lang_Cat_inv. split; [|done]. by intros (s1 & s2 & _ & H%lang_Void_inv & _).
Qed.

Lemma lang_Cat_Void_r r s : lang (Cat r Void) s <-> False.
Proof.
  rewrite lang_Cat_inv. split; [|done]. by intros (s1 & s2 & _ & _ & H%lang_Void_inv).
Qed.

Lemma lang_cat r1 r2 s : lang (cat r1 r2) s <-> lang (Cat r1 r2) s.
Proof.
  destruct r1, r2; simpl;
    rewrite ?lang_Cat_Eps, ?lang_Cat_Void_l, ?lang_Cat_Void_r, ?lang_Void_inv; done.
Qed.

Lemma lang_alt r1 r2 s : lang (alt r1 r2) s <-> lang (Alt r1 r2) s.
Proof.
  destruct r1, r2; simpl; rewrite ?lang_Alt_inv, ?lang_Void_inv; tauto.
Qed.

(** A non-empty word of a star begins with a non-empty word of its body. *)
Lemma lang_Star_cons r a s :
  lang (Star r) (String a s) ->
  exists s1 s2, s = s1 +:+ s2 /\ lang r (String a s1) /\ lang (Star r) s2.
Proof.
  intros H. remember (Star r) as r' eqn:Er. remember (String a s) as w eqn:Ew.
  revert Er Ew.
  induction H as [| | | | | | |r0 s1 s2 H1 _ H2 IH2]; intros Er Ew; try done.
  injection Er as ->. destruct s1 as [|b s1].
  - rewrite app_nil_l in Ew. by apply IH2.
  - rewrite app_cons in Ew. injection Ew as -> <-. eauto.
Qed.

Lemma lang_deriv a r s : lang (deriv a r) s <-> lang r (String a s).
Proof.
  revert s. induction r as [| |lo hi| |r1 IH1 r2 IH2|r1 IH1 r2 IH2|r IH];
    intros s; simpl.
  - by rewrite !lang_Void_inv.
  - by rewrite lang_Void_inv, lang_Eps_inv.
  - rewrite lang_Range_inv. destruct (_ && _) eqn:E.
    + apply andb_true_iff in E as [E1%N.leb_le E2%N.leb_le].
      rewrite lang_Eps_inv. split.
      * intros ->. by exists a.
      * by intros (b & [= _ ->] & _).
    + rewrite lang_Void_inv. split; [done|].
      intros (b & [= <- ->] & H1%N.leb_le & H2%N.leb_le). by rewrite H1, H2 in E.
  - rewrite lang_Dot_inv. destruct (lineTerminator a) eqn:E.
    + rewrite lang_Void_inv. split; [done|]. intros (b & [= <- ->] & H). congruence.
    + rewrite lang_Eps_inv. split.
      * intros ->. by exists a.
      * by intros (b & [= _ ->] & _).
  - assert (lang (cat (deriv a r1) r2) s <->
            exists s1 s2, s = s1 +:+ s2 /\ lang r1 (String a s1) /\ lang r2 s2) as Hc.
    { rewrite lang_cat, lang_Cat_inv. by setoid_rewrite IH1. }
    rewrite lang_Cat_inv. destruct (nullable r1) eqn:N.
    + rewrite lang_alt, lang_Alt_inv, Hc, IH2. split.
      * intros [(s1 & s2 & -> & H1 & H2)|H].
        -- by exists (String a s1), s2.
        -- exists EmptyString, (String a s). by rewrite <- nullable_lang.
      * intros (s1 & s2 & E & H1 & H2). destruct s1 as [|b s1].
        -- right. rewrite app_nil_l in E. by subst.
        -- rewrite app_cons in E. injection E as <- ->. left. eauto.
    + rewrite Hc. split.
      * intros (s1 & s2 & -> & H1 & H2). by exists (String a s1), s2.
      * intros (s1 & s2 & E & H1 & H2). destruct s1 as [|b s1].
        -- apply nullable_lang in H1. congruence.
        -- rewrite app_cons in E. injection E as <- ->. eauto.
  - by rewrite lang_alt, !lang_Alt_inv, IH1, IH2.
  - rewrite lang_cat, lang_Cat_inv. split.
    + intros (s1 & s2 & -> & H1%IH & H2).
      apply (LStarApp r (String a s1) s2 H1 H2).
    + intros (s1 & s2 & -> & H1 & H2)%lang_Star_cons.
      exists s1, s2. by rewrite IH.
Qed.

(** [fullMatch] decides membership. *)
Lemma fullMatch_lang r s : fullMatch r s = true <-> lang r s.
Proof.
  revert r. induction s as [|a s IH]; intros r; simpl.
  - apply nullable_lang.
  - by rewrite IH, lang_deriv.
Qed.

Lemma code_bounded a : (code a <= 255)%N.
Proof. unfold code. pose proof (N_ascii_bounded a). lia. Qed.

Lemma lang_anyUnits s : lang (Star anyUnit) s.
Proof.
  induction s as [|a s IH]; [constructor|].
  apply (LStarApp anyUnit (String a EmptyString) s); [|done].
  constructor; [unfold code; simpl; lia|apply code_bounded].
Qed.

(** [search] decides whether some factor of the string is a word. *)
Lemma search_lang r s :
  search r s = true <->
  exists pre w post, s = pre +:+ w +:+ post /\ lang r w.
Proof.
  unfold search. rewrite fullMatch_lang, lang_Cat_inv. split.
  - intros (pre & s' & -> & _ & (w & post & -> & Hw & _)%lang_Cat_inv). eauto.
  - intros (pre & w & post & -> & Hw). exists pre, (w +:+ post).
    split; [done|]. split; [apply lang_anyUnits|].
    constructor; [done|apply lang_anyUnits].
Qed.

Lemma lang_lit p w : lang (lit p) w <-> w = p.
Proof.
  revert w. induction p as [|a p IH]; intros w.
  - simpl. split; [by inversion 1|intros ->; constructor].
  - assert (lang (chr a) (String a EmptyString)) as Ha
      by (constructor; lia).
    assert (forall v, lang (chr a) v -> v = String a EmptyString) as Ha'.
    { inversion 1; subst. f_equal.
      assert (code a0 = code a) as E by lia.
      unfold code in E. by rewrite <- (ascii_N_embedding a0), E, ascii_N_embedding. }
    destruct p as [|b p].
    + simpl. split; [apply Ha'|by intros ->].
    + change (lit (String a (String b p))) with (Cat (chr a) (lit (String b p))).
      rewrite lang_Cat_inv. split.
      * intros (s1 & s2 & -> & ->%Ha' & ->%IH). done.
      * intros ->. exists (String a EmptyString), (String b p).
        split; [done|]. split; [done|]. by apply IH.
Qed.

(** A literal fingerprint is found exactly in the strings that contain it. *)
Lemma search_lit p s :
  search (lit p) s = true <-> exists pre post, s = pre +:+ p +:+ post.
Proof.
  rewrite search_lang. split.
  - intros (pre & w & post & -> & ->%lang_lit). eauto.
  - intros (pre & post & ->). exists pre, p, post. by rewrite lang_lit.
Qed.

(** [c{n}] for a class [c] of single code units. *)
Lemma lang_power_units c P n w :
  (forall v, lang c v <-> exists a, v = String a EmptyString /\ P a = true) ->
  lang (power c n) w <-> String.length w = n /\ allUnits P w = true.
Proof.
  intros Hc. destruct n as [|n].
  { simpl. rewrite lang_Eps_inv. split; [by intros ->|]. intros [H _]. by destruct w. }
  revert w. induction n as [|n IH]; intros w.
  - simpl. rewrite Hc. split.
    + intros (a & -> & Ha). simpl. by rewrite Ha.
    + intros [Hl Hw]. destruct w as [|a [|b w]]; try done.
      exists a. split; [done|]. simpl in Hw. by rewrite andb_true_r in Hw.
  - change (power c (S (S n))) with (Cat c (power c (S n))).
    rewrite lang_Cat_inv. split.
    + intros (s1 & s2 & -> & (a & -> & Ha)%Hc & [Hl Hw]%IH).
      rewrite app_cons, app_nil_l. simpl. by rewrite Ha, Hl, Hw.
    + intros [Hl Hw]. destruct w as [|a w]; [done|].
      simpl in Hl, Hw. apply andb_true_iff in Hw as [Ha Hw].
      exists (String a EmptyString), w. split; [done|]. split.
      * apply Hc. by exists a.
      * apply IH. split; [lia|done].
Qed.

Lemma lang_hexLower v :
  lang (Alt (Range "a" "f") (Range "0" "9")) v <->
  exists a, v = String a EmptyString /\ hexLower a = true.
Proof.
  rewrite lang_Alt_inv, !lang_Range_inv. unfold hexLower. split.
  - intros [(a & -> & H1%N.leb_le & H2%N.leb_le)|(a & -> & H1%N.leb_le & H2%N.leb_le)];
      exists a; rewrite H1, H2; by rewrite ?orb_true_r.
  - intros (a & -> & [[H1%N.leb_le H2%N.leb_le]%andb_true_iff
                     |[H1%N.leb_le H2%N.leb_le]%andb_true_iff]%orb_true_iff);
      [left|right]; by exists a.
Qed.

(** The Helix fingerprint is found exactly in the strings that contain
    [/media_] followed by forty code units of [[a-f0-9]]. *)
Lemma search_helix s :
  search Fingerprint.helix s = true <->
  exists pre h post,
    s = pre +:+ "/media_" +:+ h +:+ post
    /\ String.length h = 40%nat /\ allUnits hexLower h = true.
Proof.
  rewrite search_lang. unfold Fingerprint.helix.
  change (rep ?r 40 40) with (power r 40). split.
  - intros (pre & w & post & -> & (s1 & h & -> & ->%lang_lit & Hh)%lang_Cat_inv).
    apply (lang_power_units _ hexLower) in Hh as [Hl Hh]; [|apply lang_hexLower].
    exists pre, h, post. by rewrite app_assoc.
  - intros (pre & h & post & -> & Hl & Hh).
    exists pre, ("/media_" +:+ h), post. split; [by rewrite app_assoc|].
    apply lang_Cat_inv. exists "/media_", h. split; [done|].
    split; [by apply lang_lit|].
    apply (lang_power_units _ hexLower); [apply lang_hexLower|done].
Qed.

End ReFacts.

(** The literals of [flagIP] on sample domains. *)
Example ipv4Regex_samples :
  map (Re.fullMatch IP.ipv4Regex)
      ["192.0.2.7"; "255.255.255.255"; "256.1.1.1"; "1.2.3"; "www.example.com"]
  = [true; true; false; false; false].
Proof. by vm_compute. Qed.

Example ipv6Regex_samples :
  map (Re.fullMatch IP.ipv6Regex)
      ["::1"; "2001:db8::1"; "fe80::1%eth0"; "::ffff:192.0.2.7";
       "1:2:3:4:5:6:7:8"; "1:2:3:4:5:6:7"; "www.example.com"; "192.0.2.7"]
  = [true; true; true; true; true; false; false; false].
Proof. by vm_compute. Qed.

Example flagIP_sample :
  Source (flagIP (freshRow "192.0.2.7")) = Some "Excluded"
  /\ Comment (flagIP (freshRow "192.0.2.7")) = Some ipComment
  /\ flagIP (freshRow "www.example.com") = freshRow "www.example.com".
Proof. by vm_compute. Qed.



(** ** The normaliser *)

Section Normalizer.
Import Js JsFacts.

Lemma occurs_dropLast_dot c s :
  endsWith s "." = true -> Ascii.eqb "." c = false ->
  occurs c (dropLast s) = occurs c s.
Proof.
  intros Hs Hc. induction s as [|a s IH]; [done|].
  destruct s as [|b s].
  - cbn [endsWith String.eqb] in Hs.
    destruct (Ascii.eqb_spec a ".") as [E|]; [|done].
    cbn [dropLast occurs]. by rewrite E, Hc.
  - change (dropLast (String a (String b s))) with (String a (dropLast (String b s))).
    cbn [occurs]. f_equal. apply IH.
    cbn [endsWith] in Hs. apply orb_true_iff in Hs as [Hs|Hs]; [|done].
    cbn [String.eqb] in Hs. by destruct (Ascii.eqb a ".").
Qed.

Lemma cleanupTrailingDot_Domain row :
  Domain (cleanupTrailingDot row) =
  if endsWith (Domain row) "." then dropLast (Domain row) else Domain row.
Proof.
  unfold cleanupTrailingDot. destruct (endsWith (Domain row) "."); [|done].
  apply slice_dropLast.
Qed.

Lemma cleanupTrailingDot_occurs c row :
  Ascii.eqb "." c = false ->
  occurs c (Domain (cleanupTrailingDot row)) = occurs c (Domain row).
Proof.
  intros Hc. rewrite cleanupTrailingDot_Domain.
  destruct (endsWith (Domain row) ".") eqn:E; [|done].
  by apply occurs_dropLast_dot.
Qed.

Lemma cleanupTrailingDot_frame row :
  Source (cleanupTrailingDot row) = Source row
  /\ Comment (cleanupTrailingDot row) = Comment row.
Proof. unfold cleanupTrailingDot. by destruct (endsWith (Domain row) "."). Qed.

Lemma flagPorts_Domain row :
  Domain (flagPorts row) =
  if occurs "/" (Domain row) then before "/" (Domain row) else Domain row.
Proof.
  unfold flagPorts. rewrite !indexOf_unit.
  destruct (occurs ":" (Domain row)); cbn [Domain setDomain setComment setSource];
    destruct (occurs "/" (Domain row)); cbn [Domain setDomain setComment setSource];
    by rewrite ?split_hd.
Qed.

(** What [flagPorts] leaves on a row whose domain has a colon and a slash. *)
Lemma flagPorts_both row :
  occurs ":" (Domain row) = true -> occurs "/" (Domain row) = true ->
  flagPorts row =
  setComment (Some pathComment)
    (setDomain (hd EmptyString (split (Domain row) "/"))
       (setComment (Some portComment) (setSource (Some "Excluded") row))).
Proof.
  intros Hc Hs. unfold flagPorts. rewrite !indexOf_unit, Hc.
  cbn [Domain setDomain setComment setSource]. by rewrite Hs.
Qed.

Lemma normalize_unfold d :
  normalize d =
  let d1 := if endsWith d "." then dropLast d else d in
  if occurs "/" d1 then before "/" d1 else d1.
Proof.
  unfold normalize. rewrite flagPorts_Domain, cleanupTrailingDot_Domain. done.
Qed.

Lemma normalize_no_slash d : occurs "/" (normalize d) = false.
Proof.
  rewrite normalize_unfold. cbv zeta.
  set (d1 := if endsWith d "." then dropLast d else d).
  destruct (occurs "/" d1) eqn:E; [apply occurs_before | exact E].
Qed.

Lemma normalize_second_pass d :
  normalize (normalize d) =
  if endsWith (normalize d) "." then dropLast (normalize d) else normalize d.
Proof.
  rewrite (normalize_unfold (normalize d)). cbv zeta.
  pose proof (normalize_no_slash d) as H.
  destruct (endsWith (normalize d) ".").
  - by rewrite (occurs_dropLast _ _ H).
  - by rewrite H.
Qed.

End Normalizer.

(** C3 (as stated, refuted): on the domain [a:1/b] the stage ends with the
    path-removal comment, not with the port-exclusion comment. *)
Lemma flagPorts_port_comment_overwritten :
  ~ (forall row : Row,
       Js.indexOf (Domain row) ":" > -1 -> Js.indexOf (Domain row) "/" > -1 ->
       Source (flagPorts (cleanupTrailingDot row)) = Some "Excluded"
       /\ Comment (flagPorts (cleanupTrailingDot row)) = Some portComment).
Proof.
  intros H. destruct (H (freshRow "a:1/b")) as [_ HC]; [done..|].
  vm_compute in HC. discriminate.
Qed.

(** C3 (amended): for every record whose Domain contains both a colon and a
    slash, the port check runs first and the path check second: the record
    leaves [flagPorts], and the normaliser as a whole, with
    Source = Excluded, with the Domain cut before its first slash, and with
    the path-removal comment, which has replaced the port-exclusion
    comment. *)
Theorem flagPorts_port_then_path (row : Row) :
  Js.indexOf (Domain row) ":" > -1 -> Js.indexOf (Domain row) "/" > -1 ->
  (Source (flagPorts row) = Some "Excluded"
   /\ Comment (flagPorts row) = Some pathComment
   /\ Domain (flagPorts row) = hd EmptyString (Js.split (Domain row) "/")
   /\ exists rest, Domain row = Domain (flagPorts row) +:+ String "/" rest)
  /\ Source (flagPorts (cleanupTrailingDot row)) = Some "Excluded"
  /\ Comment (flagPorts (cleanupTrailingDot row)) = Some pathComment.
Proof.
  intros Hc Hs.
  apply Z.gt_lt, Z.gtb_lt in Hc, Hs. rewrite JsFacts.indexOf_unit in Hc, Hs.
  split; [|split].
  - rewrite (flagPorts_both row Hc Hs). cbn [Source Comment Domain setComment setDomain setSource].
    repeat split. rewrite JsFacts.split_hd. by apply JsFacts.before_split.
  - rewrite flagPorts_both; [done|by rewrite cleanupTrailingDot_occurs..].
  - rewrite flagPorts_both; [done|by rewrite cleanupTrailingDot_occurs..].
Qed.

Lemma flagPorts_port_then_path_witness :
  let row := freshRow "cdn.example.com:443/x." in
  Js.indexOf (Domain row) ":" > -1
  /\ Js.indexOf (Domain row) "/" > -1
  /\ Source (flagPorts (cleanupTrailingDot row)) = Some "Excluded"
  /\ Comment (flagPorts (cleanupTrailingDot row)) = Some pathComment.
Proof.
  intros row. split; [reflexivity|]. split; [reflexivity|].
  apply (flagPorts_port_then_path row); reflexivity.
Defined.

(** C5 (as stated, refuted): a second pass over [a..] removes one more
    dot. *)
Lemma normalize_not_idempotent :
  ~ (forall D : string, normalize (normalize D) = normalize D).
Proof.
  intros H. specialize (H "a.."). vm_compute in H. discriminate.
Qed.

(** C5 (amended): after one pass the domain has no slash left, so a second
    pass removes no path; the second pass removes one more trailing dot when
    the result of the first still ends with one, and changes nothing
    otherwise. Normalisation is thus idempotent exactly on the domains whose
    normal form does not end with a dot. *)
Theorem normalize_twice (D : string) :
  Js.indexOf (normalize D) "/" = -1
  /\ normalize (normalize D) =
     (if Js.endsWith (normalize D) "." then Js.slice (normalize D) 0 (-1)
      else normalize D)
  /\ (normalize (normalize D) = normalize D
      <-> Js.endsWith (normalize D) "." = false).
Proof.
  pose proof (normalize_no_slash D) as Hs.
  pose proof (normalize_second_pass D) as H2.
  split; [|split].
  - rewrite <- JsFacts.indexOf_unit in Hs.
    pose proof (JsFacts.indexOf_lower (normalize D) "/").
    rewrite Z.gtb_ltb in Hs. apply Z.ltb_ge in Hs. lia.
  - by rewrite JsFacts.slice_dropLast.
  - rewrite H2. destruct (Js.endsWith (normalize D) ".") eqn:E; [|done].
    split; [|done]. intros Heq. exfalso.
    eapply JsFacts.dropLast_neq; [|exact Heq].
    by eapply JsFacts.endsWith_nonempty.
Qed.

(** ** The sorter *)

Section Sorting.
Context {A : Type} (cmp : A -> A -> Z).

Let notAfter (a b : A) : Prop := cmp a b <= 0.

Lemma insertBy_perm x l : insertBy cmp x l ≡ₚ x :: l.
Proof.
  induction l as [|y l IH]; [done|]. simpl.
  destruct (cmp x y <=? 0); [done|].
  rewrite IH. apply perm_swap.
Qed.

Lemma sortBy_perm l : sortBy cmp l ≡ₚ l.
Proof.
  induction l as [|x l IH]; [done|]. simpl.
  rewrite insertBy_perm. by constructor.
Qed.

Hypothesis cmp_consistent : consistent cmp.

Lemma insertBy_sorted x l :
  StronglySorted notAfter l -> StronglySorted notAfter (insertBy cmp x l).
Proof.
  destruct cmp_consistent as [Htot Htrans].
  induction 1 as [|y l Hl IH Hy]; simpl.
  - repeat constructor.
  - destruct (Z.leb_spec (cmp x y) 0) as [Hxy|Hxy].
    + constructor; [by constructor|].
      constructor; [done|].
      eapply Forall_impl; [exact Hy|]. intros z Hz. by eapply Htrans.
    + constructor; [done|].
      rewrite insertBy_perm. constructor; [|done].
      destruct (Htot x y); [lia|done].
Qed.

Lemma sortBy_sorted l : StronglySorted notAfter (sortBy cmp l).
Proof.
  induction l as [|x l IH]; simpl; [constructor|by apply insertBy_sorted].
Qed.

Lemma StronglySorted_lookup (R : A -> A -> Prop) l i j a b :
  StronglySorted R l -> (i < j)%nat -> l !! i = Some a -> l !! j = Some b -> R a b.
Proof.
  intros Hl. revert i j. induction Hl as [|x l Hl IH Hx]; intros i j Hij Hi Hj; [done|].
  destruct j as [|j]; [lia|]. simpl in Hj.
  destruct i as [|i]; simpl in Hi.
  - injection Hi as ->. rewrite Forall_forall in Hx. apply Hx.
    by eapply list_elem_of_lookup_2.
  - apply (IH i j); [lia|done..].
Qed.

Lemma sortBy_ordered l i j a b :
  (i < j)%nat -> sortBy cmp l !! i = Some a -> sortBy cmp l !! j = Some b ->
  cmp a b <= 0.
Proof. apply (StronglySorted_lookup notAfter), sortBy_sorted. Qed.

End Sorting.

Section ParentOrder.
Variable env : Env.
Hypothesis collation : consistent (localeCompare env).

Lemma compareParent_consistent : consistent (compareParent env).
Proof.
  destruct collation as [Htot Htrans]. split.
  - intros a b. unfold compareParent.
    destruct (Js.truthy (Parent a)), (Js.truthy (Parent b)); simpl; try lia.
    apply Htot.
  - intros a b c. unfold compareParent.
    destruct (Js.truthy (Parent a)), (Js.truthy (Parent b)),
      (Js.truthy (Parent c)); simpl; try lia.
    apply Htrans.
Qed.

(** In the output, a row with a truthy Parent is never behind a row with a
    falsy one, and two rows with truthy Parents are in collation order. *)
Lemma sorted_by_truthy_parent rows i j ri rj :
  (i < j)%nat ->
  sortBy (compareParent env) rows !! i = Some ri ->
  sortBy (compareParent env) rows !! j = Some rj ->
  (Js.truthy (Parent ri) = false -> Js.truthy (Parent rj) = false)
  /\ (forall pi pj, Parent ri = Some pi -> Parent rj = Some pj ->
        Js.truthy (Parent ri) = true -> Js.truthy (Parent rj) = true ->
        localeCompare env pi pj <= 0).
Proof.
  intros Hij Hi Hj.
  pose proof (sortBy_ordered _ compareParent_consistent rows i j ri rj Hij Hi Hj) as H.
  unfold compareParent in H. split.
  - intros Ei. rewrite Ei in H. simpl in H.
    destruct (Js.truthy (Parent rj)); [simpl in H; lia|done].
  - intros pi pj Epi Epj Ei Ej. rewrite Ei, Ej, Epi, Epj in H. exact H.
Qed.

End ParentOrder.

Lemma codeUnitCompare_consistent : consistent Scenario.codeUnitCompare.
Proof.
  assert (forall x y, Scenario.codeUnitCompare x y <= 0 <-> String.le x y) as Hle.
  { intros x y. unfold Scenario.codeUnitCompare, String.le.
    destruct (String.leb x y), (String.leb y x); simpl; split; (lia || done). }
  split.
  - intros a b. rewrite !Hle. destruct (String.le_total a b); auto.
  - intros a b c. rewrite !Hle. apply String.le_po.
Qed.

(** C9 (as stated, refuted): a record whose Parent is present and empty is
    sorted like a record without Parent. The input with the columns Domain
    and Parent and the rows [192.0.2.7,] and [www.example.com] reaches the
    sorter with the Parents "" and "www.example.com"; the output has the
    named Parent first and the empty one behind it, against the
    collation. *)
Lemma sort_empty_parent_behind_named :
  ~ (forall (env : Env) (rows : list Row),
       consistent (localeCompare env) ->
       forall i j ri rj,
         (i < j)%nat ->
         sortBy (compareParent env) rows !! i = Some ri ->
         sortBy (compareParent env) rows !! j = Some rj ->
         (forall pi pj, Parent ri = Some pi -> Parent rj = Some pj ->
            localeCompare env pi pj <= 0)
         /\ (Parent ri = None -> Parent rj = None)).
Proof.
  intros H.
  pose (env := Scenario.network (inl Scenario.notFound) (inl Scenario.fetchFailed)).
  pose (rows := map (prepare env)
                  [ setParent (Some EmptyString) (freshRow "192.0.2.7");
                    freshRow "www.example.com" ]).
  destruct (H env rows codeUnitCompare_consistent 0%nat 1%nat
              (prepare env (freshRow "www.example.com"))
              (prepare env (setParent (Some EmptyString) (freshRow "192.0.2.7"))))
    as [Hord _]; [lia|by vm_compute|by vm_compute|].
  specialize (Hord "www.example.com" EmptyString eq_refl eq_refl).
  vm_compute in Hord. by apply Hord.
Qed.

(** C9 (amended): the sorter returns the records it was given, arranged so
    that any two records with non-empty Parents stand in non-decreasing
    order of [localeCompare], and so that no record whose Parent is absent
    or empty stands before a record with a non-empty Parent. The collation
    is taken to be a consistent order. *)
Theorem sort_orders_by_nonempty_parent (env : Env) (rows : list Row) :
  consistent (localeCompare env) ->
  sortBy (compareParent env) rows ≡ₚ rows
  /\ forall i j ri rj,
       (i < j)%nat ->
       sortBy (compareParent env) rows !! i = Some ri ->
       sortBy (compareParent env) rows !! j = Some rj ->
       (forall pi pj, Parent ri = Some pi -> Parent rj = Some pj ->
          pi <> EmptyString -> pj <> EmptyString ->
          localeCompare env pi pj <= 0)
       /\ (Parent ri = None \/ Parent ri = Some EmptyString ->
           Parent rj = None \/ Parent rj = Some EmptyString).
Proof.
  intros Hlc. split; [apply sortBy_perm|].
  intros i j ri rj Hij Hi Hj.
  destruct (sorted_by_truthy_parent env Hlc rows i j ri rj Hij Hi Hj) as [Habs Hord].
  assert (forall o, Js.truthy o = false <-> o = None \/ o = Some EmptyString) as Hfalsy.
  { intros [s|]; simpl; [|by split; auto].
    destruct (String.eqb_spec s EmptyString) as [->|Hne]; simpl; split; auto.
    - done.
    - intros [|[= ]]; done. }
  split.
  - intros pi pj Ei Ej Hpi Hpj. apply Hord; [done..| |].
    + rewrite Ei. simpl. by destruct (String.eqb_spec pi EmptyString).
    + rewrite Ej. simpl. by destruct (String.eqb_spec pj EmptyString).
  - rewrite <- !Hfalsy. exact Habs.
Qed.

Lemma sort_orders_by_nonempty_parent_witness :
  let env := Scenario.network (inl Scenario.notFound) (inl Scenario.fetchFailed) in
  let rows := [ freshRow "localhost";
                setParent (Some "b.com") (freshRow "www.b.com");
                setParent (Some EmptyString) (freshRow "192.0.2.7");
                setParent (Some "a.com") (freshRow "a.com") ] in
  consistent (localeCompare env)
  /\ sortBy (compareParent env) rows ≡ₚ rows
  /\ forall i j ri rj,
       (i < j)%nat ->
       sortBy (compareParent env) rows !! i = Some ri ->
       sortBy (compareParent env) rows !! j = Some rj ->
       (forall pi pj, Parent ri = Some pi -> Parent rj = Some pj ->
          pi <> EmptyString -> pj <> EmptyString ->
          localeCompare env pi pj <= 0)
       /\ (Parent ri = None \/ Parent ri = Some EmptyString ->
           Parent rj = None \/ Parent rj = Some EmptyString).
Proof.
  intros env rows.
  assert (consistent (localeCompare env)) as Hc by apply codeUnitCompare_consistent.
  split; [exact Hc|].
  exact (sort_orders_by_nonempty_parent env rows Hc).
Defined.

(** ** Excluded rows pass through the guarded stages *)

Section Guards.
Variable env : Env.

Lemma flagIP_excluded row : isExcluded row = true -> flagIP row = row.
Proof. intros H. unfold flagIP. by rewrite H. Qed.

Lemma flagParent_excluded row : isExcluded row = true -> flagParent env row = row.
Proof. intros H. unfold flagParent. by rewrite H. Qed.

Lemma enrichDNS_excluded row :
  isExcluded row = true -> enrichDNS env row = Fulfilled row.
Proof. intros H. unfold enrichDNS. by rewrite H. Qed.

Lemma enrichHTTPS_excluded row :
  isExcluded row = true -> enrichHTTPS env (Fulfilled row) = Fulfilled row.
Proof. intros H. unfold enrichHTTPS. simpl. by rewrite H. Qed.

Lemma flagCDN_excluded row :
  isExcluded row = true -> flagCDN (Fulfilled row) = Fulfilled row.
Proof. intros H. unfold flagCDN. simpl. by rewrite H. Qed.

Lemma enrichHTML_excluded row :
  isExcluded row = true -> enrichHTML (Fulfilled row) = Fulfilled row.
Proof. intros H. unfold enrichHTML. simpl. by rewrite H. Qed.

Lemma enrich_excluded row :
  isExcluded row = true -> enrich env row = Fulfilled row.
Proof.
  intros H. unfold enrich.
  by rewrite enrichDNS_excluded, enrichHTTPS_excluded, flagCDN_excluded,
    enrichHTML_excluded.
Qed.

(** [flagDev] has no such guard; it leaves an excluded row alone only when
    neither Parent nor TLD is a listed name. *)
Lemma flagDev_unlisted row :
  includes devParents (Parent row) = false ->
  includes devParents (TLD row) = false ->
  flagDev row = row.
Proof. intros H1 H2. unfold flagDev. by rewrite H1, H2. Qed.

End Guards.

(** ** The CDN classifier *)

Section CDN.
Import Js JsFacts.

Lemma flagCDN_without_DNS row :
  DNS row = None -> flagCDN (Fulfilled row) = Fulfilled row.
Proof.
  intros H. unfold flagCDN. simpl. rewrite H. by destruct (isExcluded row).
Qed.












End CDN.

Section FirstMatch.
Import Js.

(** [find] returns the first entry that passes the test. *)
Lemma find_first {A} (f : A -> bool) (l : list A) (k : nat) (c : A) :
  l !! k = Some c -> f c = true ->
  (forall j c', (j < k)%nat -> l !! j = Some c' -> f c' = false) ->
  List.find f l = Some c.
Proof.
  revert k. induction l as [|x l IH]; intros k Hk Hc Hbefore; [done|].
  destruct k as [|k]; simpl in *.
  - injection Hk as ->. by rewrite Hc.
  - rewrite (Hbefore 0%nat x) by (lia || done).
    apply (IH k); [done..|]. intros j c' Hj Hc'. apply (Hbefore (S j)); [lia|done].
Qed.




End FirstMatch.



(** The same with the outcome spelt out: in the answer of the witness the
    record of type A ends with a pattern and is passed over, and the CDN is
    Adobe Commerce, not the Fastly of the shorter pattern nor the Cloudfront
    of the later record. *)
Example first_matching_cname_run :
  let answer := [ mkDns "A" "edge.fastly.net";
                  mkDns "CNAME" "edge.example.org";
                  mkDns "CNAME" "shop.magentocloud.map.fastly.net";
                  mkDns "CNAME" "d111.cloudfront.net" ] in
  flagCDN (Fulfilled (setDNS (Some answer) (freshRow "shop.example.com")))
  = Fulfilled (setCDN (Some "Adobe Commerce") (freshRow "shop.example.com")).
Proof. by vm_compute. Qed.

(** ** Frames of the enrichment stages *)

Section Frames.
Variable env : Env.

Lemma enrichDNS_failure row e :
  isExcluded row = false -> resolveAny env (Domain row) = inl e ->
  enrichDNS env row = Fulfilled (setDNSError (Some e) row).
Proof. intros Hx He. unfold enrichDNS. by rewrite Hx, He. Qed.

Lemma enrichDNS_frame row r :
  enrichDNS env row = Fulfilled r ->
  Source r = Source row /\ HTTPBody r = HTTPBody row /\ CDN r = CDN row.
Proof.
  unfold enrichDNS. destruct (isExcluded row).
  - by intros [= <-].
  - destruct (resolveAny env (Domain row)); by intros [= <-].
Qed.

Lemma enrichHTTPS_frame row r :
  enrichHTTPS env (Fulfilled row) = Fulfilled r ->
  Source r = Source row /\ DNS r = DNS row /\ DNSError r = DNSError row
  /\ CDN r = CDN row.
Proof.
  unfold enrichHTTPS. simpl await. destruct (isExcluded row).
  - by intros [= <-].
  - destruct (newURL env _) as [e|url]; [done|].
    destruct (fetch env url) as [e|res]; [by intros [= <-]|].
    destruct (_ && _); [|by intros [= <-]].
    destruct (text res); by intros [= <-].
Qed.

Lemma flagCDN_frame row r :
  flagCDN (Fulfilled row) = Fulfilled r ->
  Source r = Source row /\ HTTPBody r = HTTPBody row
  /\ (isExcluded row = false -> DNS r = None).
Proof.
  unfold flagCDN. simpl await. destruct (isExcluded row).
  - by intros [= <-].
  - destruct (DNS row) as [answer|] eqn:E; [|by intros [= <-]].
    intros [= <-]. cbn [Source HTTPBody DNS setDNS].
    repeat match goal with
           | |- context [if ?b then _ else _] => destruct b
           end; done.
Qed.

End Frames.

(** A failed resolution, in any environment: the classifier leaves the
    record without a CDN of its own. *)
Lemma flagCDN_after_failed_resolution (env : Env) (row r : Row) (e : JsError) :
  isExcluded row = false -> DNS row = None ->
  resolveAny env (Domain row) = inl e ->
  flagCDN (enrichHTTPS env (enrichDNS env row)) = Fulfilled r ->
  DNSError r = Some e /\ DNS r = None /\ CDN r = CDN row.
Proof.
  intros Hx Hd He. rewrite (enrichDNS_failure env row e Hx He).
  destruct (enrichHTTPS env _) as [r2|e2] eqn:E2; [|done].
  destruct (enrichHTTPS_frame env _ r2 E2) as (_ & D2 & DE2 & C2).
  cbn [DNS DNSError CDN setDNSError] in D2, DE2, C2.
  rewrite flagCDN_without_DNS by congruence. intros [= <-]. split; [done|].
  split; congruence.
Qed.

(** C1 (the code at the failing input): a row whose resolution failed
    carries DNSError and no DNS; it has no CNAME and no server header; the
    classifier returns it as it came, with no CDN, where the specification expects
    the CDN "DNS Error". *)
Theorem flagCDN_failed_resolution_unclassified (d : string) :
  let env := Scenario.network (inl Scenario.notFound) (inl Scenario.fetchFailed) in
  exists r1 r2,
    enrichHTTPS env (enrichDNS env (freshRow d)) = Fulfilled r1
    /\ DNSError r1 = Some Scenario.notFound
    /\ DNS r1 = None
    /\ header r1 "server" = None
    /\ flagCDN (Fulfilled r1) = Fulfilled r2
    /\ r2 = r1
    /\ CDN r2 = None
    /\ CDN r2 <> Some "DNS Error".
Proof.
  intros env.
  exists (setHTTPError (Some Scenario.fetchFailed)
            (setDNSError (Some Scenario.notFound) (freshRow d))).
  eexists. repeat split; try reflexivity. discriminate.
Qed.

(** ** The content classifier *)

Lemma enrichHTML_unverified row :
  isExcluded row = false -> Js.truthy (HTTPBody row) = false ->
  enrichHTML (Fulfilled row) = Fulfilled (setSource (Some "Unverified") row).
Proof. intros Hx Hb. unfold enrichHTML. simpl await. by rewrite Hx, Hb. Qed.

Lemma enrichHTML_body row body :
  isExcluded row = false -> HTTPBody row = Some body -> body <> EmptyString ->
  exists row', enrichHTML (Fulfilled row) = Fulfilled row' /\ byFingerprint body row'.
Proof.
  intros Hx Hb Hne. unfold enrichHTML, byFingerprint. simpl await.
  rewrite Hx, Hb. cbn [Js.truthy default from_option id negb].
  destruct (String.eqb_spec body EmptyString) as [|_]; [done|]. cbn [negb].
  destruct (Re.search Fingerprint.helix body);
    [eexists; split; [reflexivity|by repeat split]|].
  destruct (Re.search Fingerprint.aem body); [by eexists|].
  destruct (Re.search Fingerprint.rum body); by eexists.
Qed.

(** C7 (as stated, refuted): a record whose HTTPBody is present and empty
    matches no fingerprint, yet it is not labelled Other: the classifier
    labels it Unverified. *)
Lemma enrichHTML_empty_body_unverified :
  ~ (forall row : Row,
       isExcluded row = false ->
       exists row',
         enrichHTML (Fulfilled row) = Fulfilled row'
         /\ match HTTPBody row with
            | None => Source row' = Some "Unverified"
            | Some body => byFingerprint body row'
            end).
Proof.
  intros H.
  destruct (H (setHTTPBody (Some EmptyString) (freshRow "empty.example.com")))
    as (row' & Hrow' & Hsrc); [done|].
  injection Hrow' as <-. vm_compute in Hsrc. discriminate.
Qed.

(** C7 (amended): for every non-excluded record, the content classifier
    sets Source = Unverified when HTTPBody is absent or empty; otherwise it
    tests the Helix, AEM and RUM fingerprints in that order, the first match
    winning (so a body with both the media path and the clientlibs path is
    Helix, with HTTPBody and HTTPHeaders deleted), and sets Source = Other
    when none matches. *)
Theorem enrichHTML_classifies (row : Row) :
  isExcluded row = false ->
  exists row',
    enrichHTML (Fulfilled row) = Fulfilled row'
    /\ match HTTPBody row with
       | None => Source row' = Some "Unverified"
       | Some body =>
           if String.eqb body EmptyString then Source row' = Some "Unverified"
           else byFingerprint body row'
       end
    /\ (forall pre h post pre' post',
          HTTPBody row = Some (pre +:+ "/media_" +:+ h +:+ post) ->
          String.length h = 40%nat -> Re.allUnits Re.hexLower h = true ->
          pre +:+ "/media_" +:+ h +:+ post = pre' +:+ "/etc.clientlibs/" +:+ post' ->
          Source row' = Some "Helix" /\ HTTPBody row' = None
          /\ HTTPHeaders row' = None).
Proof.
  intros Hx.
  assert (exists row',
            enrichHTML (Fulfilled row) = Fulfilled row'
            /\ match HTTPBody row with
               | None => Source row' = Some "Unverified"
               | Some body =>
                   if String.eqb body EmptyString then Source row' = Some "Unverified"
                   else byFingerprint body row'
               end) as (row' & Hrow' & Hcls).
  { destruct (HTTPBody row) as [body|] eqn:Hb.
    - destruct (String.eqb_spec body EmptyString) as [->|Hne].
      + eexists. split; [apply enrichHTML_unverified; [done|by rewrite Hb]|done].
      + by apply enrichHTML_body.
    - eexists. split; [apply enrichHTML_unverified; [done|by rewrite Hb]|done]. }
  exists row'. split; [done|]. split; [done|].
  intros pre h post pre' post' Hb Hl Hh _. rewrite Hb in Hcls.
  assert (Re.search Fingerprint.helix (pre +:+ "/media_" +:+ h +:+ post) = true)
    as Hs by (apply ReFacts.search_helix; by exists pre, h, post).
  destruct (String.eqb_spec (pre +:+ "/media_" +:+ h +:+ post) EmptyString) as [E|_].
  { rewrite E in Hs. by vm_compute in Hs. }
  unfold byFingerprint in Hcls. by rewrite Hs in Hcls.
Qed.

Lemma enrichHTML_classifies_witness :
  let body := "<img src=/media_0123456789abcdef0123456789abcdef01234567.png><link href=/etc.clientlibs/site.css>" in
  Re.search Fingerprint.helix body = true
  /\ Re.search Fingerprint.aem body = true
  /\ exists row',
       enrichHTML (Fulfilled (setHTTPBody (Some body) (freshRow "www.example.com")))
       = Fulfilled row'
       /\ Source row' = Some "Helix" /\ HTTPBody row' = None
       /\ HTTPHeaders row' = None.
Proof.
  intros body. split; [by vm_compute|]. split; [by vm_compute|].
  destruct (enrichHTML_classifies
              (setHTTPBody (Some body) (freshRow "www.example.com")) eq_refl)
    as (row' & Hrow' & _ & Hboth).
  exists row'. split; [exact Hrow'|].
  apply (Hboth "<img src=" "0123456789abcdef0123456789abcdef01234567"
           ".png><link href=/etc.clientlibs/site.css>"
           "<img src=/media_0123456789abcdef0123456789abcdef01234567.png><link href="
           "site.css>"); reflexivity.
Defined.

(** The dot of the AEM fingerprint stands for any code unit that is not a
    line terminator. *)
Lemma aem_dot_any_unit (c : ascii) :
  Re.lineTerminator c = false ->
  Re.search Fingerprint.aem ("/etc" +:+ String c "clientlibs/") = true.
Proof.
  destruct c as [[] [] [] [] [] [] [] []]; vm_compute; (reflexivity || discriminate).
Qed.

(** C10: there is a body without the literal path [/etc.clientlibs/], namely
    [/etcXclientlibs/], that the content classifier labels AEM: the dot of
    the AEM fingerprint matches the X. *)
Theorem enrichHTML_aem_without_literal_path :
  exists body,
    Js.indexOf body "/etc.clientlibs/" = -1
    /\ ~ (exists pre post, body = pre +:+ "/etc.clientlibs/" +:+ post)
    /\ Re.search Fingerprint.aem body = true
    /\ forall row, exists row',
         enrichHTML (Fulfilled (setHTTPBody (Some body) (setSource None row)))
         = Fulfilled row'
         /\ Source row' = Some "AEM".
Proof.
  exists "/etcXclientlibs/". split; [reflexivity|]. split.
  { intros H%ReFacts.search_lit. by vm_compute in H. }
  split; [by vm_compute|].
  intros row. eexists. split; [vm_compute; reflexivity|reflexivity].
Qed.

(** ** The HTTP enricher *)




(** A failed request, run: the record comes back with HTTPError and with
    none of HTTPStatus, HTTPHeaders and HTTPBody. *)
Example enrichHTTPS_failed_request_run :
  let env := Scenario.network (inr []) (inl Scenario.fetchFailed) in
  enrichHTTPS env (Fulfilled (freshRow "down.example.com"))
  = Fulfilled (setHTTPError (Some Scenario.fetchFailed) (freshRow "down.example.com")).
Proof. reflexivity. Qed.

(** ** The dev-domain check *)

(** C8 (the code at the failing input): a row read with the columns Domain
    and Parent, whose Domain is an IP address and whose Parent is a listed
    name. The IP check excludes it with its comment; the suffix resolver
    skips it; the dev-domain check, which has no guard, then replaces the
    comment of the excluding stage. *)
Theorem flagDev_rewrites_excluded_row (env : Env) :
  let row := setParent (Some "github.com") (freshRow "192.0.2.7") in
  let excluded := flagParent env (flagIP (flagPorts (cleanupTrailingDot row))) in
  Source excluded = Some "Excluded"
  /\ Comment excluded = Some ipComment
  /\ Comment (flagDev excluded) = Some devComment
  /\ prepare env row = flagDev excluded
  /\ Comment (prepare env row) <> Comment excluded.
Proof. by vm_compute. Qed.

(** ** The scratch fields in the final output *)

Section Scratch.
Variable env : Env.

Lemma isExcluded_Source a b : Source a = Source b -> isExcluded a = isExcluded b.
Proof. unfold isExcluded. by intros ->. Qed.

Lemma prepare_frame row :
  DNS (prepare env row) = DNS row /\ HTTPBody (prepare env row) = HTTPBody row.
Proof.
  unfold prepare, flagDev, flagParent, flagIP, flagPorts, cleanupTrailingDot.
  repeat match goal with
         | |- context [if ?b then _ else _] => destruct b
         end; done.
Qed.

Lemma promiseAll_elem {A} (ps : list (Promise A)) out a :
  promiseAll ps = Fulfilled out -> a ∈ out -> Fulfilled a ∈ ps.
Proof.
  revert out. induction ps as [|p ps IH]; intros out; simpl.
  - intros [= <-] H. by apply elem_of_nil in H.
  - destruct p as [b|e]; [|done]. simpl.
    destruct (promiseAll ps) as [l|e]; [|done]. simpl.
    intros [= <-] [->|H]%elem_of_cons; [left|right]. by apply (IH l).
Qed.

(** What one chain of enrichment leaves of the scratch fields. *)
Lemma enrich_scratch r0 r :
  DNS r0 = None -> HTTPBody r0 = None -> enrich env r0 = Fulfilled r ->
  DNS r = None
  /\ (Source r = Some "Excluded" \/ Source r = Some "Helix"
      \/ Source r = Some "AEM" -> HTTPBody r = None)
  /\ (Source r = Some "Unverified" -> Js.truthy (HTTPBody r) = false)
  /\ (Js.truthy (HTTPBody r) = true ->
      Source r = Some "RUM" \/ Source r = Some "Other").
Proof.
  intros Hdns Hbody. destruct (isExcluded r0) eqn:Hx.
  { rewrite enrich_excluded by done. intros [= <-]. rewrite Hbody.
    split; [done|]. split; [done|]. split; [done|]. done. }
  unfold enrich.
  destruct (enrichDNS env r0) as [r1|e] eqn:E1.
  2:{ unfold enrichDNS in E1. rewrite Hx in E1.
      by destruct (resolveAny env (Domain r0)). }
  destruct (enrichDNS_frame env r0 r1 E1) as (S1 & _ & _).
  destruct (enrichHTTPS env (Fulfilled r1)) as [r2|e] eqn:E2; [|done].
  destruct (enrichHTTPS_frame env r1 r2 E2) as (S2 & _).
  destruct (flagCDN (Fulfilled r2)) as [r3|e] eqn:E3; [|done].
  destruct (flagCDN_frame r2 r3 E3) as (S3 & _ & D3).
  assert (isExcluded r3 = false) as Hx3.
  { rewrite <- Hx. apply isExcluded_Source. congruence. }
  assert (DNS r3 = None) as Hd3.
  { apply D3. rewrite <- Hx. apply isExcluded_Source. congruence. }
  unfold enrichHTML. simpl await. rewrite Hx3.
  destruct (Js.truthy (HTTPBody r3)) eqn:Hb; cbn [negb].
  - repeat match goal with
           | |- context [if ?b then _ else _] => destruct b
           end;
      intros [= <-];
      cbn [DNS Source HTTPBody setSource setHTTPBody setHTTPHeaders];
      (split; [done|]); (split; [by intros [|[|]]|]); (split; [done|]);
      intros Ht; first [done | by left | by right].
  - intros [= <-]. cbn [DNS Source HTTPBody setSource]. rewrite Hb.
    split; [done|]. split; [by intros [|[|]]|]. done.
Qed.

End Scratch.

(** C2 (as stated, refuted): a page that matches no fingerprint is labelled
    Other and goes to the output with its HTTPBody. *)
Lemma cleaned_keeps_unmatched_body :
  ~ (forall (env : Env) (csvData out : list Row) (r : Row),
       Forall (fun r0 => DNS r0 = None /\ HTTPBody r0 = None) csvData ->
       cleaned env csvData = Fulfilled out ->
       r ∈ out ->
       DNS r = None /\ HTTPBody r = None).
Proof.
  intros H.
  pose (page := "<html><body>Hello</body></html>").
  pose (env := Scenario.network (inr [mkDns "A" EmptyString])
                 (inr (Scenario.htmlResponse (inr page)))).
  pose (csvData := [freshRow "example.org"; freshRow "www.example.com"]).
  pose (r := setSource (Some "Other")
               (setHTTPBody (Some page)
                  (setHTTPHeaders
                     (Some (fromEntries (headers (Scenario.htmlResponse (inr page)))))
                     (setHTTPStatus (Some 200)
                        (setTLD (Some "com")
                           (setParent (Some "www.example.com")
                              (freshRow "www.example.com"))))))).
  destruct (H env csvData [r] r) as [_ Hb].
  - repeat constructor.
  - by vm_compute.
  - left.
  - discriminate.
Qed.

Section Retained.
Variable env : Env.

Lemma enrichHTTPS_body_origin row r body :
  HTTPBody row = None -> enrichHTTPS env (Fulfilled row) = Fulfilled r ->
  HTTPBody r = Some body ->
  exists url res, fetch env url = inr res /\ text res = inr body.
Proof.
  intros Hb. unfold enrichHTTPS. simpl await. destruct (isExcluded row).
  { intros [= <-]. congruence. }
  destruct (newURL env _) as [e|url]; [done|].
  destruct (fetch env url) as [e|res] eqn:Ef.
  { intros [= <-]. cbn. congruence. }
  destruct (_ && _).
  - destruct (text res) as [e|b] eqn:Et; intros [= <-]; cbn; [congruence|].
    intros [= ->]. by exists url, res.
  - intros [= <-]. cbn. congruence.
Qed.

(** A record that leaves the chain as RUM or Other carries the body that
    the response gave. *)
Lemma enrich_retained_body r0 r :
  HTTPBody r0 = None -> enrich env r0 = Fulfilled r ->
  Source r = Some "RUM" \/ Source r = Some "Other" ->
  exists body url res,
    HTTPBody r = Some body /\ body <> EmptyString
    /\ fetch env url = inr res /\ text res = inr body.
Proof.
  intros Hbody. destruct (isExcluded r0) eqn:Hx.
  { rewrite enrich_excluded by done. intros [= <-] Hs. unfold isExcluded in Hx.
    destruct Hs as [Hs|Hs]; rewrite Hs in Hx; done. }
  unfold enrich.
  destruct (enrichDNS env r0) as [r1|e] eqn:E1.
  2:{ unfold enrichDNS in E1. rewrite Hx in E1.
      by destruct (resolveAny env (Domain r0)). }
  destruct (enrichDNS_frame env r0 r1 E1) as (S1 & B1 & _).
  destruct (enrichHTTPS env (Fulfilled r1)) as [r2|e] eqn:E2; [|done].
  destruct (enrichHTTPS_frame env r1 r2 E2) as (S2 & _).
  destruct (flagCDN (Fulfilled r2)) as [r3|e] eqn:E3; [|done].
  destruct (flagCDN_frame r2 r3 E3) as (S3 & B3 & _).
  assert (isExcluded r3 = false) as Hx3.
  { rewrite <- Hx. apply isExcluded_Source. congruence. }
  assert (forall body, HTTPBody r3 = Some body ->
            exists url res, fetch env url = inr res /\ text res = inr body) as Horigin.
  { intros body Hb3. apply (enrichHTTPS_body_origin r1 r2); congruence. }
  unfold enrichHTML. simpl await. rewrite Hx3.
  destruct (HTTPBody r3) as [body|] eqn:Hb3; cbn [Js.truthy negb default from_option id].
  2:{ intros [= <-]. cbn. by intros [|]. }
  destruct (String.eqb_spec body EmptyString) as [->|Hne]; cbn [negb].
  { intros [= <-]. cbn. by intros [|]. }
  destruct (Horigin body eq_refl) as (url & res & Hf & Ht).
  repeat match goal with
         | |- context [if ?b then _ else _] => destruct b
         end;
    intros [= <-]; cbn [Source HTTPBody setSource setHTTPBody setHTTPHeaders];
    intros Hs; try (by destruct Hs); rewrite Hb3; by exists body, url, res.
Qed.

End Retained.

(** C2 (amended): in every record of the final output DNS is absent.
    HTTPBody is absent when the record is Excluded, Helix or AEM, and absent
    or empty when it is Unverified. For the RUM and Other classifications
    HTTPBody is retained: such a record carries the non-empty body that the
    response gave; and a record that still carries a non-empty HTTPBody is
    RUM or Other. The records are taken as the reader builds them, with
    neither field set. *)
Theorem cleaned_scratch_fields
    (env : Env) (csvData out : list Row) (r : Row) :
  Forall (fun r0 => DNS r0 = None /\ HTTPBody r0 = None) csvData ->
  cleaned env csvData = Fulfilled out ->
  r ∈ out ->
  DNS r = None
  /\ (Source r = Some "Excluded" \/ Source r = Some "Helix"
      \/ Source r = Some "AEM" -> HTTPBody r = None)
  /\ (Source r = Some "Unverified" ->
      HTTPBody r = None \/ HTTPBody r = Some EmptyString)
  /\ (Source r = Some "RUM" \/ Source r = Some "Other" ->
      exists body url res,
        HTTPBody r = Some body /\ body <> EmptyString
        /\ fetch env url = inr res /\ text res = inr body)
  /\ (forall body, HTTPBody r = Some body -> body <> EmptyString ->
      Source r = Some "RUM" \/ Source r = Some "Other").
Proof.
  intros Hfresh Hout Hr. unfold cleaned in Hout.
  apply (promiseAll_elem _ _ _ Hout) in Hr.
  apply list_elem_of_fmap in Hr as (r0 & Hr0 & Hin).
  rewrite sortBy_perm in Hin.
  apply list_elem_of_fmap in Hin as (raw & -> & Hraw).
  assert (raw ∈ csvData) as Hraw'.
  { destruct csvData; [done|]. by right. }
  rewrite Forall_forall in Hfresh. destruct (Hfresh raw Hraw') as [Hd Hb].
  destruct (prepare_frame env raw) as [Pd Pb].
  destruct (enrich_scratch env (prepare env raw) r) as (H1 & H2 & H3 & H4);
    [congruence..|done|].
  split; [done|]. split; [done|]. split; [|split].
  - intros Hs. specialize (H3 Hs). destruct (HTTPBody r) as [b|]; [|by left].
    right. simpl in H3. destruct (String.eqb_spec b EmptyString); [by subst|done].
  - apply (enrich_retained_body env (prepare env raw) r); [congruence|done].
  - intros body Eb Hne. apply H4. rewrite Eb. simpl.
    by destruct (String.eqb_spec body EmptyString).
Qed.

Lemma cleaned_scratch_fields_witness :
  let page := "<html><body>Hello</body></html>" in
  let env := Scenario.network (inr [mkDns "CNAME" "d111.cloudfront.net"])
               (inr (Scenario.htmlResponse (inr page))) in
  let csvData := [freshRow "example.org"; freshRow "www.example.com"] in
  exists r,
    cleaned env csvData = Fulfilled [r]
    /\ Source r = Some "Other"
    /\ DNS r = None
    /\ (Source r = Some "RUM" \/ Source r = Some "Other" ->
        exists body url res,
          HTTPBody r = Some body /\ body <> EmptyString
          /\ fetch env url = inr res /\ text res = inr body).
Proof.
  intros page env csvData.
  pose (r := setSource (Some "Other")
               (setCDN (Some "Cloudfront")
                  (setHTTPBody (Some page)
                     (setHTTPHeaders
                        (Some (fromEntries (headers (Scenario.htmlResponse (inr page)))))
                        (setHTTPStatus (Some 200)
                           (setTLD (Some "com")
                              (setParent (Some "www.example.com")
                                 (freshRow "www.example.com")))))))).
  exists r.
  assert (Forall (fun r0 => DNS r0 = None /\ HTTPBody r0 = None) csvData) as Hf
    by (repeat constructor).
  assert (cleaned env csvData = Fulfilled [r]) as Hc by (by vm_compute).
  assert (r ∈ [r]) as Hin by left.
  split; [exact Hc|]. split; [reflexivity|].
  destruct (cleaned_scratch_fields env csvData [r] r Hf Hc Hin) as (H1 & _ & _ & H4 & _).
  exact (conj H1 H4).
Defined.

(** ** Runs of the pipeline *)

(** Records that compare equal keep the order of the input. *)
Example sortBy_stable :
  let env := Scenario.network (inl Scenario.notFound) (inl Scenario.fetchFailed) in
  map Domain
    (sortBy (compareParent env)
       [ freshRow "localhost";
         setParent (Some "b.com") (freshRow "www.b.com");
         freshRow "intranet";
         setParent (Some "a.com") (freshRow "a.com");
         setParent (Some "b.com") (freshRow "shop.b.com") ])
  = ["a.com"; "www.b.com"; "shop.b.com"; "localhost"; "intranet"].
Proof. by vm_compute. Qed.

(** A domain with a port is excluded and not enriched; a domain in root
    notation behind a Cloudfront alias is normalised and classified. *)
Example cleaned_run :
  let env := Scenario.network (inr [mkDns "CNAME" "foo.cloudfront.net"])
               (inl Scenario.fetchFailed) in
  exists r1 r2,
    cleaned env [ freshRow "Domain"; freshRow "cdn.example.com:443";
                  freshRow "www.example.com." ]
    = Fulfilled [r1; r2]
    /\ Domain r1 = "www.example.com" /\ CDN r1 = Some "Cloudfront"
    /\ Source r1 = Some "Unverified" /\ DNS r1 = None
    /\ HTTPError r1 = Some Scenario.fetchFailed
    /\ r2 = setComment (Some portComment)
              (setSource (Some "Excluded") (freshRow "cdn.example.com:443")).
Proof. intros env. do 2 eexists. split; [by vm_compute|]. by repeat split. Qed.

(** * Further properties of the program *)

(** ** The reader *)

Section ReaderFacts.
Import Reader.

Lemma fieldsFrom_nonempty b line : fieldsFrom b line <> [].
Proof.
  revert b. induction line as [|a rest IH]; intros b; [done|]. simpl.
  destruct (isDelimiter a).
  - destruct b; [apply IH|done].
  - by destruct (fieldsFrom false rest).
Qed.

Lemma fieldsFrom_units b line f :
  f ∈ fieldsFrom b line -> Re.allUnits nonDelimiter f = true.
Proof.
  revert b f. induction line as [|a rest IH]; intros b f; simpl.
  - by intros ->%list_elem_of_singleton.
  - destruct (isDelimiter a) eqn:Ea.
    + destruct b; [apply IH|]. intros [->|H]%elem_of_cons; [done|by eapply IH].
    + destruct (fieldsFrom false rest) as [|field fields] eqn:Ef.
      * intros ->%list_elem_of_singleton. simpl. unfold nonDelimiter. by rewrite Ea.
      * intros [->|H]%elem_of_cons.
        -- simpl. unfold nonDelimiter at 1. rewrite Ea. simpl.
           apply (IH false). rewrite Ef. left.
        -- apply (IH false). rewrite Ef. by right.
Qed.

(** After a run of delimiters the next field is not empty, unless the line
    ends there; and so for every field that is neither first nor last. *)
Lemma fieldsFrom_interior b line :
  (forall i, (0 < i)%nat -> (S i < length (fieldsFrom b line))%nat ->
     fieldsFrom b line !! i <> Some EmptyString)
  /\ (b = true -> (2 <= length (fieldsFrom b line))%nat ->
      fieldsFrom b line !! 0%nat <> Some EmptyString).
Proof.
  revert b. induction line as [|a rest IH]; intros b.
  { split; simpl; intros; lia. }
  cbn [fieldsFrom]. destruct (isDelimiter a).
  - destruct b; [apply IH|]. destruct (IH true) as [IHi IHh]. split; [|done].
    intros [|[|i]] Hi Hlen; [lia|..]; cbn [length] in Hlen; simpl.
    + apply IHh; [done|lia].
    + apply IHi; lia.
  - destruct (IH false) as [IHi _].
    destruct (fieldsFrom false rest) as [|field fields]; [split; simpl; intros; lia|].
    split.
    + intros [|i] Hi Hlen; [lia|]. apply (IHi (S i)); [lia|done].
    + done.
Qed.

Lemma fieldsFrom_field b f rest :
  Re.allUnits nonDelimiter f = true -> f <> EmptyString ->
  fieldsFrom b (f +:+ rest) =
  match fieldsFrom false rest with
  | h :: t => (f +:+ h) :: t
  | [] => [f]
  end.
Proof.
  revert b. induction f as [|a f IH]; intros b Hf Hne; [done|].
  simpl in Hf. apply andb_true_iff in Hf as [Ha Hf].
  unfold nonDelimiter in Ha. apply negb_true_iff in Ha.
  rewrite ReFacts.app_cons. cbn [fieldsFrom]. rewrite Ha.
  destruct f as [|a' f'].
  - rewrite ReFacts.app_nil_l.
    by destruct (fieldsFrom false rest).
  - rewrite (IH false) by done.
    destruct (fieldsFrom false rest); by rewrite ?ReFacts.app_cons.
Qed.

Lemma fieldsFrom_run b sep rest :
  Re.allUnits isDelimiter sep = true -> sep <> EmptyString ->
  fieldsFrom b (sep +:+ rest) =
  if b then fieldsFrom true rest else EmptyString :: fieldsFrom true rest.
Proof.
  revert b. induction sep as [|a sep IH]; intros b Hs Hne; [done|].
  simpl in Hs. apply andb_true_iff in Hs as [Ha Hs].
  rewrite ReFacts.app_cons. cbn [fieldsFrom]. rewrite Ha.
  destruct sep as [|a' sep'].
  - by rewrite ReFacts.app_nil_l.
  - rewrite (IH true) by done. done.
Qed.

Lemma fieldsFrom_single f :
  Re.allUnits nonDelimiter f = true -> fieldsFrom false f = [f].
Proof.
  induction f as [|a f IH]; [done|]. simpl. intros [Ha Hf]%andb_true_iff.
  unfold nonDelimiter in Ha. apply negb_true_iff in Ha. rewrite Ha.
  by rewrite IH.
Qed.

Lemma setProperty_lookup acc name cur :
  name <> "__proto__" -> setProperty acc name cur !! name = Some cur.
Proof.
  intros Hn. unfold setProperty.
  destruct (String.eqb_spec name "__proto__"); [done|]. apply lookup_insert_eq.
Qed.

Lemma setProperty_other acc name cur k :
  name <> k -> setProperty acc name cur !! k = acc !! k.
Proof.
  intros Hn. unfold setProperty.
  destruct (String.eqb name "__proto__"); [done|]. by apply lookup_insert_ne.
Qed.

Lemma setProperty_proto acc name cur :
  setProperty acc name cur !! "__proto__" = acc !! "__proto__".
Proof.
  unfold setProperty. destruct (String.eqb_spec name "__proto__"); [done|].
  by apply lookup_insert_ne.
Qed.

Lemma reduceRow_proto headers i row acc :
  reduceRow headers i row acc !! "__proto__" = acc !! "__proto__".
Proof.
  revert i acc. induction row as [|c row IH]; intros i acc; [done|]. simpl.
  by rewrite IH, setProperty_proto.
Qed.

Lemma reduceRow_last headers i row acc cur :
  headerName headers (i + length row) <> "__proto__" ->
  reduceRow headers i (row ++ [cur]) acc !! headerName headers (i + length row) =
  Some cur.
Proof.
  revert i acc. induction row as [|c row IH]; intros i acc; simpl.
  - rewrite Nat.add_0_r. apply setProperty_lookup.
  - rewrite <- Nat.add_succ_comm. apply IH.
Qed.

Lemma reduceRow_other headers i row acc k :
  (forall j, (j < length row)%nat -> headerName headers (i + j) <> k) ->
  reduceRow headers i row acc !! k = acc !! k.
Proof.
  revert i acc. induction row as [|c row IH]; intros i acc Hk; [done|]. simpl.
  rewrite IH.
  - apply setProperty_other. specialize (Hk 0%nat). rewrite Nat.add_0_r in Hk.
    apply Hk. simpl. lia.
  - intros j Hj. rewrite Nat.add_succ_comm. apply Hk. simpl. lia.
Qed.

Lemma reduceRow_lookup headers i row acc j h :
  NoDup headers -> (i + length row <= length headers)%nat ->
  headers !! (i + j)%nat = Some h -> h <> "__proto__" ->
  reduceRow headers i row acc !! h =
  match row !! j with Some cur => Some cur | None => acc !! h end.
Proof.
  intros Hnd. revert i acc j. induction row as [|c row IH]; intros i acc j Hlen Hh Hp.
  { done. }
  cbn [length] in Hlen. cbn [reduceRow].
  destruct j as [|j]; cbn [lookup list_lookup].
  - rewrite Nat.add_0_r in Hh.
    rewrite reduceRow_other.
    + unfold headerName. rewrite Hh. by apply setProperty_lookup.
    + intros j Hj E. unfold headerName in E.
      destruct (headers !! (S i + j)%nat) as [h'|] eqn:Eh'.
      * simpl in E. subst h'.
        pose proof (NoDup_lookup _ _ _ _ Hnd Hh Eh'). lia.
      * apply lookup_ge_None in Eh'. lia.
  - rewrite <- Nat.add_succ_comm in Hh.
    rewrite (IH (S i) _ j) by (done || lia).
    destruct (row !! j); [done|].
    apply setProperty_other. unfold headerName.
    destruct (headers !! i) as [h'|] eqn:Eh'.
    + simpl. intros ->.
      pose proof (NoDup_lookup _ _ _ _ Hnd Hh Eh'). lia.
    + apply lookup_ge_None in Eh'. lia.
Qed.

End ReaderFacts.

(** X1: no field of a split line holds a delimiter (a space, a tab, a comma
    or a semicolon), and a line always gives at least one field. *)
Theorem splitLine_fields_without_delimiter (line : string) :
  Reader.splitLine line <> []
  /\ Forall (fun f => Re.allUnits nonDelimiter f = true) (Reader.splitLine line).
Proof.
  split; [apply fieldsFrom_nonempty|].
  apply Forall_forall. intros f. apply fieldsFrom_units.
Qed.

(** X2: a run of delimiters separates once: of the fields of a line only
    the first and the last can be empty, so an empty cell between two
    delimiters is not kept as a field. *)
Theorem splitLine_interior_fields_nonempty (line : string) (i : nat) :
  (0 < i)%nat -> (S i < length (Reader.splitLine line))%nat ->
  Reader.splitLine line !! i <> Some EmptyString.
Proof. apply fieldsFrom_interior. Qed.

Lemma splitLine_interior_fields_nonempty_witness :
  (0 < 1)%nat /\ (2 < length (Reader.splitLine "a,, ;b;c"))%nat
  /\ Reader.splitLine "a,, ;b;c" !! 1%nat <> Some EmptyString.
Proof.
  split; [lia|]. split; [vm_compute; lia|].
  apply (splitLine_interior_fields_nonempty "a,, ;b;c" 1); [lia|vm_compute; lia].
Defined.

(** X3: splitting undoes joining: fields that are non-empty and free of
    delimiters, joined by any non-empty run of delimiters, are read back as
    they were. *)
Theorem splitLine_join (sep : string) (fields : list string) :
  Re.allUnits Reader.isDelimiter sep = true -> sep <> EmptyString ->
  fields <> [] ->
  Forall (fun f => Re.allUnits nonDelimiter f = true /\ f <> EmptyString) fields ->
  Reader.splitLine (Writer.join sep fields) = fields.
Proof.
  intros Hsep Hne Hnil Hfs. unfold Reader.splitLine.
  induction Hfs as [|f fields [Hf Hfne] Hfs IH]; [done|].
  destruct fields as [|g fields].
  - simpl. by apply fieldsFrom_single.
  - change (Writer.join sep (f :: g :: fields))
      with (f +:+ sep +:+ Writer.join sep (g :: fields)).
    rewrite fieldsFrom_field by done.
    rewrite fieldsFrom_run by done.
    assert (Reader.fieldsFrom true (Writer.join sep (g :: fields)) = g :: fields) as ->.
    { inversion Hfs as [|? ? [Hg Hgne] _]; subst.
      specialize (IH ltac:(done)).
      destruct fields as [|g' fields'].
      - simpl in *. replace g with (g +:+ EmptyString) at 1 by apply ReFacts.app_nil_r.
        rewrite fieldsFrom_field by done. simpl. by rewrite ReFacts.app_nil_r.
      - change (Writer.join sep (g :: g' :: fields'))
          with (g +:+ sep +:+ Writer.join sep (g' :: fields')) in *.
        rewrite fieldsFrom_field in IH |- * by done. done. }
    by rewrite ReFacts.app_nil_r.
Qed.

Lemma splitLine_join_witness :
  Reader.splitLine (Writer.join ", " ["www.example.com"; "42"; "x"])
  = ["www.example.com"; "42"; "x"].
Proof.
  apply (splitLine_join ", " ["www.example.com"; "42"; "x"]);
    [reflexivity|discriminate|discriminate|].
  repeat constructor; (reflexivity || discriminate).
Defined.

(** X4: the reader gives one object per line after the first, in order;
    when the names of the first line are distinct and a line has no more
    fields than there are names, its object maps the j-th name to the j-th
    field of the line, and has no property for a name beyond the fields of
    the line. The name [__proto__] is the exception: no object of the
    reader has a property of its own under it. *)
Theorem readCSVFromStdin_lookup
    (first line : string) (rest : list string) (k j : nat) (h : string) :
  NoDup (Reader.splitLine first) ->
  rest !! k = Some line ->
  (length (Reader.splitLine line) <= length (Reader.splitLine first))%nat ->
  Reader.splitLine first !! j = Some h ->
  h <> "__proto__" ->
  length (Reader.readCSVFromStdin (first :: rest)) = length rest
  /\ exists obj,
       Reader.readCSVFromStdin (first :: rest) !! k = Some obj
       /\ obj !! h = Reader.splitLine line !! j
       /\ obj !! "__proto__" = None.
Proof.
  intros Hnd Hk Hlen Hj Hp. unfold Reader.readCSVFromStdin. cbn [map].
  split; [by rewrite !length_map|].
  eexists. split; [|split].
  - rewrite list_lookup_fmap. change (map Reader.splitLine rest) with (Reader.splitLine <$> rest).
    by rewrite list_lookup_fmap, Hk.
  - rewrite (reduceRow_lookup _ 0 _ _ j h Hnd) by done.
    by destruct (Reader.splitLine line !! j).
  - by rewrite reduceRow_proto.
Qed.

Lemma readCSVFromStdin_lookup_witness :
  exists obj,
    Reader.readCSVFromStdin ["Domain,__proto__,Requests"; "a.example.com,x,12"]
      !! 0%nat = Some obj
    /\ obj !! "Requests" = Reader.splitLine "a.example.com,x,12" !! 2%nat
    /\ obj !! "__proto__" = None.
Proof.
  apply (readCSVFromStdin_lookup "Domain,__proto__,Requests" "a.example.com,x,12"
           ["a.example.com,x,12"] 0 2 "Requests").
  - unfold Reader.splitLine. vm_compute.
    repeat constructor; rewrite ?elem_of_cons, ?elem_of_nil; intuition discriminate.
  - reflexivity.
  - vm_compute. lia.
  - reflexivity.
  - discriminate.
Defined.

Lemma reduceRow_surplus (headers fields : list string) (cur : string) :
  (length headers <= length fields)%nat ->
  Reader.reduceRow headers 0 (fields ++ [cur]) ∅ !! "undefined" = Some cur.
Proof.
  intros Hlen.
  pose proof (reduceRow_last headers 0 fields ∅ cur) as H.
  unfold Reader.headerName in H.
  rewrite (proj2 (lookup_ge_None headers (0 + length fields))) in H by (simpl; lia).
  by apply H.
Qed.

(** X5: a line with more fields than the first line has names puts every
    surplus field under the name "undefined": its object maps "undefined"
    to the last field of the line. *)
Theorem readCSVFromStdin_surplus_fields
    (first line : string) (rest : list string) (k : nat) :
  rest !! k = Some line ->
  (length (Reader.splitLine first) < length (Reader.splitLine line))%nat ->
  exists obj,
    Reader.readCSVFromStdin (first :: rest) !! k = Some obj
    /\ obj !! "undefined" = last (Reader.splitLine line).
Proof.
  intros Hk Hlen. unfold Reader.readCSVFromStdin. cbn [map].
  eexists. split.
  - rewrite list_lookup_fmap. change (map Reader.splitLine rest) with (Reader.splitLine <$> rest).
    by rewrite list_lookup_fmap, Hk.
  - simpl. destruct (exists_last (fieldsFrom_nonempty false line)) as (fields & cur & E).
    unfold Reader.splitLine in *. rewrite E in Hlen |- *.
    rewrite last_snoc. apply reduceRow_surplus.
    rewrite length_app in Hlen. simpl in Hlen. lia.
Qed.

Lemma readCSVFromStdin_surplus_fields_witness :
  exists obj,
    Reader.readCSVFromStdin ["Domain"; "a.example.com,12,x"] !! 0%nat = Some obj
    /\ obj !! "undefined" = last (Reader.splitLine "a.example.com,12,x").
Proof.
  apply (readCSVFromStdin_surplus_fields "Domain" "a.example.com,12,x"
           ["a.example.com,12,x"] 0); [reflexivity|vm_compute; lia].
Defined.

(** ** The normaliser and the IP check *)

Section NormalizerMore.
Import Js JsFacts.

Lemma dropLast_dot s : endsWith s "." = true -> s = dropLast s +:+ ".".
Proof.
  induction s as [|a s IH]; [done|]. destruct s as [|b s].
  - cbn [endsWith String.eqb]. destruct (Ascii.eqb_spec a "."); [by subst|done].
  - intros Hs. change (dropLast (String a (String b s))) with (String a (dropLast (String b s))).
    rewrite ReFacts.app_cons. f_equal. apply IH.
    cbn [endsWith] in Hs. apply orb_true_iff in Hs as [Hs|Hs]; [|done].
    cbn [String.eqb] in Hs. by destruct (Ascii.eqb a ".").
Qed.

Lemma occurs_app c s t : occurs c (s +:+ t) = occurs c s || occurs c t.
Proof.
  induction s as [|a s IH]; [done|]. rewrite ReFacts.app_cons. simpl.
  by rewrite IH, orb_assoc.
Qed.

Lemma occurs_before_other c c' s : occurs c (before c' s) = true -> occurs c s = true.
Proof.
  induction s as [|a s IH]; [done|]. simpl.
  destruct (Ascii.eqb a c'); [done|]. simpl.
  intros [->|H]%orb_true_iff; [done|]. by rewrite IH, orb_true_r.
Qed.

Lemma mustContain_sound c r w :
  Re.lang r w -> mustContain c r = true -> occurs c w = true.
Proof.
  induction 1 as [|lo hi a Hlo Hhi| |r1 r2 s1 s2 _ IH1 _ IH2|r1 r2 s _ IH
                 |r1 r2 s _ IH| |]; simpl; try done.
  - intros [->%Ascii.eqb_eq ->%Ascii.eqb_eq]%andb_true_iff.
    assert (Re.code a = Re.code c) as E by lia. unfold Re.code in E.
    rewrite <- (ascii_N_embedding a), E, ascii_N_embedding.
    by rewrite Ascii.eqb_refl.
  - rewrite occurs_app. intros [H|H]%orb_true_iff.
    + by rewrite IH1.
    + by rewrite IH2, orb_true_r.
  - intros [H _]%andb_true_iff. by apply IH.
  - intros [_ H]%andb_true_iff. by apply IH.
Qed.

Lemma octet_decimal n : (n < 256)%nat -> Re.lang IP.octet (decimal n).
Proof.
  intros Hn. apply ReFacts.fullMatch_lang.
  assert (forallb (fun n => Re.fullMatch IP.octet (decimal n)) (seq 0 256) = true)
    as H by (by vm_compute).
  rewrite forallb_forall in H. apply H. apply in_seq. lia.
Qed.

End NormalizerMore.

(** X6: the first stage removes exactly one trailing dot and nothing else:
    either the domain does not end with a dot and the record is returned as
    it is, or the old domain is the new one followed by one dot, every other
    field being kept. *)
Theorem cleanupTrailingDot_one_dot (row : Row) :
  (Js.endsWith (Domain row) "." = false /\ cleanupTrailingDot row = row)
  \/ (Js.endsWith (Domain row) "." = true
      /\ Domain row = Domain (cleanupTrailingDot row) +:+ "."
      /\ cleanupTrailingDot row = setDomain (Domain (cleanupTrailingDot row)) row).
Proof.
  unfold cleanupTrailingDot. destruct (Js.endsWith (Domain row) ".") eqn:E.
  - right. split; [done|]. cbn [Domain setDomain]. split; [|done].
    rewrite JsFacts.slice_dropLast. by apply dropLast_dot.
  - by left.
Qed.

(** X7: the IPv6 branch of the IP check cannot fire behind the port check:
    every word of the IPv6 literal holds a colon, so a record whose domain
    matches it leaves [flagPorts] already excluded, with the comment of the
    port check or of the path check, and [flagIP] returns it unchanged. An
    IPv6 address is never reported as "IP address excluded". *)
Theorem flagIP_ipv6_behind_flagPorts (row : Row) :
  Re.fullMatch IP.ipv6Regex (Domain (flagPorts row)) = true ->
  Source (flagPorts row) = Some "Excluded"
  /\ (Comment (flagPorts row) = Some portComment
      \/ Comment (flagPorts row) = Some pathComment)
  /\ flagIP (flagPorts row) = flagPorts row.
Proof.
  intros H%ReFacts.fullMatch_lang.
  apply (mustContain_sound ":") in H; [|by vm_compute].
  assert (Js.occurs ":" (Domain row) = true) as Hc.
  { rewrite flagPorts_Domain in H. destruct (Js.occurs "/" (Domain row)); [|done].
    by eapply occurs_before_other. }
  assert (Source (flagPorts row) = Some "Excluded"
          /\ (Comment (flagPorts row) = Some portComment
              \/ Comment (flagPorts row) = Some pathComment)) as [HS HC].
  { unfold flagPorts. rewrite !JsFacts.indexOf_unit, Hc.
    cbn [Domain setComment setSource].
    destruct (Js.occurs "/" (Domain row)); cbn; auto. }
  split; [done|]. split; [done|].
  apply flagIP_excluded. unfold isExcluded. by rewrite HS.
Qed.

Lemma flagIP_ipv6_behind_flagPorts_witness :
  Re.fullMatch IP.ipv6Regex (Domain (flagPorts (freshRow "2001:db8::1"))) = true
  /\ Source (flagPorts (freshRow "2001:db8::1")) = Some "Excluded"
  /\ (Comment (flagPorts (freshRow "2001:db8::1")) = Some portComment
      \/ Comment (flagPorts (freshRow "2001:db8::1")) = Some pathComment)
  /\ flagIP (flagPorts (freshRow "2001:db8::1")) = flagPorts (freshRow "2001:db8::1").
Proof.
  assert (Re.fullMatch IP.ipv6Regex (Domain (flagPorts (freshRow "2001:db8::1"))) = true)
    as H by (by vm_compute).
  split; [exact H|].
  exact (flagIP_ipv6_behind_flagPorts (freshRow "2001:db8::1") H).
Defined.

(** X8: every dotted quad of decimal numbers below 256 is an IPv4 address
    for the IP check: a record not yet excluded whose domain is such a quad
    is excluded with the comment "IP address excluded". *)
Theorem flagIP_dotted_quad (row : Row) (a b c d : nat) :
  isExcluded row = false ->
  (a < 256)%nat -> (b < 256)%nat -> (c < 256)%nat -> (d < 256)%nat ->
  Domain row = decimal a +:+ "." +:+ decimal b +:+ "." +:+ decimal c +:+ "."
               +:+ decimal d ->
  flagIP row = setComment (Some ipComment) (setSource (Some "Excluded") row).
Proof.
  intros Hx Ha Hb Hc Hd HD. unfold flagIP. rewrite Hx.
  assert (Re.fullMatch IP.ipv4Regex (Domain row) = true) as ->; [|done].
  apply ReFacts.fullMatch_lang. rewrite HD.
  assert (forall n, (n < 256)%nat ->
            Re.lang (Re.Cat IP.octet (Re.chr ".")) (decimal n +:+ ".")) as Hdot.
  { intros n Hn. constructor; [by apply octet_decimal|]. constructor; lia. }
  replace (decimal a +:+ "." +:+ decimal b +:+ "." +:+ decimal c +:+ "." +:+ decimal d)
    with (((decimal a +:+ ".") +:+ (decimal b +:+ ".") +:+ (decimal c +:+ "."))
          +:+ decimal d)
    by (by rewrite !ReFacts.app_assoc).
  unfold IP.ipv4Regex.
  change (Re.rep ?r 3 3) with (Re.Cat r (Re.Cat r r)).
  constructor; [|by apply octet_decimal].
  constructor; [by apply Hdot|]. constructor; by apply Hdot.
Qed.

Lemma flagIP_dotted_quad_witness :
  flagIP (freshRow "192.0.2.7")
  = setComment (Some ipComment) (setSource (Some "Excluded") (freshRow "192.0.2.7")).
Proof.
  apply (flagIP_dotted_quad (freshRow "192.0.2.7") 192 0 2 7);
    (reflexivity || lia).
Defined.

(** ** The pipeline as a whole *)

Section PipelineFacts.
Variable env : Env.

Lemma promiseAll_fulfilled {A} (ps : list (Promise A)) out :
  promiseAll ps = Fulfilled out <-> ps = Fulfilled <$> out.
Proof.
  revert out. induction ps as [|p ps IH]; intros out; simpl.
  - split; [by intros [= <-]|]. by destruct out.
  - destruct p as [a|e]; simpl.
    + destruct (promiseAll ps) as [l|e] eqn:E; simpl.
      * split.
        -- intros [= <-]. simpl. f_equal. by apply IH.
        -- destruct out as [|b out]; [done|]. intros [= -> Hps].
           apply IH in Hps. by injection Hps as ->.
      * split; [done|]. destruct out as [|b out]; [done|]. intros [= -> Hps].
        apply IH in Hps. done.
    + split; [done|]. by destruct out.
Qed.

Lemma promiseAll_all {A} (ps : list (Promise A)) :
  Forall (fun p => exists a, p = Fulfilled a) ps ->
  exists out, promiseAll ps = Fulfilled out.
Proof.
  induction 1 as [|p ps [a ->] _ [out IH]]; [by exists []|].
  exists (a :: out). simpl. by rewrite IH.
Qed.

Lemma promiseAll_rejected {A} (ps : list (Promise A)) e :
  Rejected e ∈ ps -> exists e', promiseAll ps = Rejected e'.
Proof.
  induction ps as [|p ps IH]; [by intros ?%elem_of_nil|].
  intros [<-|H]%elem_of_cons; simpl; [by eexists|].
  destruct p as [a|e0]; simpl; [|by eexists].
  destruct (IH H) as [e' ->]. by eexists.
Qed.

Lemma flagCDN_total row : exists r, flagCDN (Fulfilled row) = Fulfilled r.
Proof.
  unfold flagCDN. simpl await. destruct (isExcluded row); [by eexists|].
  destruct (DNS row); by eexists.
Qed.

Lemma enrichHTML_total row : exists r, enrichHTML (Fulfilled row) = Fulfilled r.
Proof.
  unfold enrichHTML. simpl await.
  repeat match goal with
         | |- context [if ?b then _ else _] => destruct b
         end; by eexists.
Qed.

Lemma enrichDNS_total row : exists r, enrichDNS env row = Fulfilled r.
Proof.
  unfold enrichDNS. destruct (isExcluded row); [by eexists|].
  destruct (resolveAny env (Domain row)); by eexists.
Qed.

Lemma enrichDNS_Domain row r :
  enrichDNS env row = Fulfilled r -> Domain r = Domain row.
Proof.
  unfold enrichDNS. destruct (isExcluded row); [by intros [= <-]|].
  destruct (resolveAny env (Domain row)); by intros [= <-].
Qed.

Lemma enrichHTTPS_Domain row r :
  enrichHTTPS env (Fulfilled row) = Fulfilled r -> Domain r = Domain row.
Proof.
  unfold enrichHTTPS. simpl await. destruct (isExcluded row); [by intros [= <-]|].
  destruct (newURL env _) as [e|url]; [done|].
  destruct (fetch env url) as [e|res]; [by intros [= <-]|].
  destruct (_ && _); [|by intros [= <-]].
  destruct (text res); by intros [= <-].
Qed.

Lemma flagCDN_Domain row r :
  flagCDN (Fulfilled row) = Fulfilled r -> Domain r = Domain row.
Proof.
  unfold flagCDN. simpl await. destruct (isExcluded row); [by intros [= <-]|].
  destruct (DNS row); [|by intros [= <-]]. intros [= <-]. cbn [Domain setDNS].
  repeat match goal with
         | |- context [if ?b then _ else _] => destruct b
         end; done.
Qed.

Lemma enrichHTML_Domain row r :
  enrichHTML (Fulfilled row) = Fulfilled r -> Domain r = Domain row.
Proof.
  unfold enrichHTML. simpl await.
  repeat match goal with
         | |- context [if ?b then _ else _] => destruct b
         end; by intros [= <-].
Qed.

Lemma enrich_Domain r0 r : enrich env r0 = Fulfilled r -> Domain r = Domain r0.
Proof.
  unfold enrich.
  destruct (enrichDNS env r0) as [r1|e] eqn:E1.
  2:{ destruct (enrichDNS_total r0) as [r1 E]. congruence. }
  destruct (enrichHTTPS env (Fulfilled r1)) as [r2|e] eqn:E2; [|done].
  destruct (flagCDN (Fulfilled r2)) as [r3|e] eqn:E3; [|done].
  intros E4.
  rewrite (enrichHTML_Domain _ _ E4), (flagCDN_Domain _ _ E3),
    (enrichHTTPS_Domain _ _ E2). by apply enrichDNS_Domain.
Qed.

Lemma enrich_fulfilled r0 :
  isExcluded r0 = true
  \/ (exists url, newURL env ("https://" +:+ Domain r0) = inr url) ->
  exists r, enrich env r0 = Fulfilled r.
Proof.
  intros [Hx|[url Hurl]]; [exists r0; by apply enrich_excluded|].
  unfold enrich. destruct (enrichDNS_total r0) as [r1 E1]. rewrite E1.
  assert (exists r2, enrichHTTPS env (Fulfilled r1) = Fulfilled r2) as [r2 ->].
  { unfold enrichHTTPS. simpl await. destruct (isExcluded r1); [by eexists|].
    rewrite (enrichDNS_Domain _ _ E1), Hurl.
    destruct (fetch env url) as [e|res]; [by eexists|].
    destruct (_ && _); [|by eexists]. destruct (text res); by eexists. }
  destruct (flagCDN_total r2) as [r3 ->]. apply enrichHTML_total.
Qed.

Lemma enrich_rejected r0 e :
  isExcluded r0 = false -> newURL env ("https://" +:+ Domain r0) = inl e ->
  enrich env r0 = Rejected e.
Proof.
  intros Hx Hurl. unfold enrich.
  destruct (enrichDNS env r0) as [r1|e1] eqn:E1.
  2:{ destruct (enrichDNS_total r0) as [r1 E]. congruence. }
  destruct (enrichDNS_frame env r0 r1 E1) as (S1 & _).
  unfold enrichHTTPS. simpl await.
  rewrite (isExcluded_Source r1 r0 S1), Hx, (enrichDNS_Domain _ _ E1), Hurl. done.
Qed.

Lemma prepare_Domain row : Domain (prepare env row) = normalize (Domain row).
Proof.
  unfold prepare.
  assert (forall r, Domain (flagDev r) = Domain r) as ->
    by (intros r; unfold flagDev; by destruct (_ || _)).
  assert (forall r, Domain (flagParent env r) = Domain r) as ->
    by (intros r; unfold flagParent; by destruct (isExcluded r)).
  assert (forall r, Domain (flagIP r) = Domain r) as ->.
  { intros r; unfold flagIP. destruct (isExcluded r); [done|]. by destruct (_ || _). }
  rewrite flagPorts_Domain, cleanupTrailingDot_Domain, normalize_unfold. done.
Qed.

Lemma early_stages_frame row :
  let r := flagIP (flagPorts (cleanupTrailingDot row)) in
  Parent r = Parent row /\ TLD r = TLD row.
Proof.
  unfold flagIP, flagPorts, cleanupTrailingDot.
  repeat match goal with
         | |- context [if ?b then _ else _] => destruct b
         end; done.
Qed.

End PipelineFacts.

(** X9: a record excluded by the port check or by the IP check (or read
    already excluded), whose Parent and TLD the input did not set, goes
    through every later stage as it is: no suffix is resolved, no network
    field is written, and the record of the output is the record that the
    excluding stage left. *)
Theorem excluded_record_not_enriched (env : Env) (row : Row) :
  Parent row = None -> TLD row = None ->
  isExcluded (flagIP (flagPorts (cleanupTrailingDot row))) = true ->
  prepare env row = flagIP (flagPorts (cleanupTrailingDot row))
  /\ enrich env (prepare env row) = Fulfilled (prepare env row).
Proof.
  intros HP HT Hx.
  destruct (early_stages_frame row) as [EP ET].
  assert (prepare env row = flagIP (flagPorts (cleanupTrailingDot row))) as E.
  { unfold prepare. rewrite flagParent_excluded by done.
    apply flagDev_unlisted; [by rewrite EP, HP|by rewrite ET, HT]. }
  split; [done|]. apply enrich_excluded. by rewrite E.
Qed.

Lemma excluded_record_not_enriched_witness :
  let env := Scenario.network (inr [mkDns "CNAME" "foo.cloudfront.net"])
               (inr (Scenario.htmlResponse (inr "<html></html>"))) in
  let row := freshRow "cdn.example.com:443" in
  prepare env row = flagIP (flagPorts (cleanupTrailingDot row))
  /\ enrich env (prepare env row) = Fulfilled (prepare env row).
Proof.
  intros env row.
  apply (excluded_record_not_enriched env row); reflexivity.
Defined.

(** X10: no record is dropped or added behind the discarded first row: a
    run that completes gives one record per remaining input row, and the
    domains of the output are the normalised domains of the input, each as
    often as it came. *)
Theorem cleaned_no_drop (env : Env) (csvData out : list Row) :
  cleaned env csvData = Fulfilled out ->
  length out = (length csvData - 1)%nat
  /\ map Domain out ≡ₚ map (fun row => normalize (Domain row)) (drop 1 csvData).
Proof.
  unfold cleaned. intros H%promiseAll_fulfilled.
  set (sorted := sortBy (compareParent env) (map (prepare env) (drop 1 csvData))) in *.
  assert (map Domain out = map Domain sorted) as HD.
  { clearbody sorted. revert out H. induction sorted as [|r0 sorted IH]; intros out H.
    - by destruct out.
    - destruct out as [|r out]; [done|]. simpl in H. injection H as H0 H.
      simpl. f_equal; [by apply (enrich_Domain env)|by apply IH]. }
  split.
  - rewrite <- (length_map Domain out), HD, length_map. unfold sorted.
    rewrite (Permutation_length (sortBy_perm _ _)), length_map, length_drop. done.
  - rewrite HD. unfold sorted. rewrite sortBy_perm.
    rewrite map_map. apply Permutation_refl'. apply map_ext. intros row.
    apply prepare_Domain.
Qed.

Lemma cleaned_no_drop_witness :
  let env := Scenario.network (inl Scenario.notFound) (inl Scenario.fetchFailed) in
  let csvData := [freshRow "Domain"; freshRow "b.example.com."; freshRow "a.example.com/x"] in
  exists out,
    cleaned env csvData = Fulfilled out
    /\ length out = (length csvData - 1)%nat
    /\ map Domain out ≡ₚ map (fun row => normalize (Domain row)) (drop 1 csvData).
Proof.
  intros env csvData.
  assert (exists out, cleaned env csvData = Fulfilled out) as [out Hout]
    by (eexists; by vm_compute).
  exists out. split; [exact Hout|].
  exact (cleaned_no_drop env csvData out Hout).
Defined.

(** X11: no failed resolution and no failed request aborts the run: for
    rows read without a DNS property of their own, if the href of every
    record that is not excluded parses, the join is fulfilled, whatever the
    resolver and [fetch] answer. *)
Theorem cleaned_fulfilled (env : Env) (csvData : list Row) :
  Forall (fun r0 => DNS r0 = None) csvData ->
  (forall row, row ∈ drop 1 csvData ->
     isExcluded (prepare env row) = true
     \/ exists url, newURL env ("https://" +:+ normalize (Domain row)) = inr url) ->
  exists out, cleaned env csvData = Fulfilled out.
Proof.
  intros _ H. unfold cleaned. apply promiseAll_all.
  apply Forall_forall. intros p Hp.
  apply list_elem_of_fmap in Hp as (r0 & -> & Hr0). rewrite sortBy_perm in Hr0.
  apply list_elem_of_fmap in Hr0 as (row & -> & Hrow).
  apply enrich_fulfilled. rewrite prepare_Domain. by apply H.
Qed.

Lemma cleaned_fulfilled_witness :
  let env := Scenario.network (inl Scenario.notFound) (inl Scenario.fetchFailed) in
  exists out,
    cleaned env [freshRow "Domain"; freshRow "gone.example.com"; freshRow "192.0.2.7"]
    = Fulfilled out.
Proof.
  intros env.
  apply (cleaned_fulfilled env
           [freshRow "Domain"; freshRow "gone.example.com"; freshRow "192.0.2.7"]).
  - repeat constructor.
  - intros row _. right. by eexists.
Defined.

(** X12: one domain that does not make a URL aborts the whole run: [new URL]
    is called outside the [try], so if the href of a single record that is
    not excluded fails to parse, the join is rejected and there is no
    output for any record. *)
Theorem cleaned_rejected (env : Env) (csvData : list Row) (row : Row) (e : JsError) :
  row ∈ drop 1 csvData ->
  isExcluded (prepare env row) = false ->
  newURL env ("https://" +:+ normalize (Domain row)) = inl e ->
  exists e', cleaned env csvData = Rejected e'.
Proof.
  intros Hrow Hx Hurl. unfold cleaned. apply (promiseAll_rejected _ e).
  apply list_elem_of_fmap. exists (prepare env row). split.
  - symmetry. apply enrich_rejected; [done|]. by rewrite prepare_Domain.
  - rewrite sortBy_perm. apply list_elem_of_fmap. by exists row.
Qed.

Lemma cleaned_rejected_witness :
  exists e',
    cleaned offline [freshRow "Domain"; freshRow "www.example.com"; freshRow EmptyString]
    = Rejected e'.
Proof.
  apply (cleaned_rejected offline
           [freshRow "Domain"; freshRow "www.example.com"; freshRow EmptyString]
           (freshRow EmptyString) (MkError "Invalid URL")).
  - right. left.
  - reflexivity.
  - reflexivity.
Defined.

(** ** The HTTP enricher, once more *)

Lemma fromEntries_fold_other (es : list (string * string)) (m : gmap string string) k :
  k ∉ es.*1 -> fold_left (fun m e => <[e.1 := e.2]> m) es m !! k = m !! k.
Proof.
  revert m. induction es as [|[k' v'] es IH]; intros m Hk; [done|].
  simpl in *. apply not_elem_of_cons in Hk as [Hne Hk].
  rewrite IH by done. by apply lookup_insert_ne.
Qed.

(** X13: a later entry of the headers replaces an earlier one of the same
    name: the mapping built from the entries gives, for a name, the value of
    its last entry, and nothing for a name that has no entry. *)
Theorem fromEntries_last_entry
    (before after : list (string * string)) (k v : string) :
  k ∉ after.*1 ->
  fromEntries (before ++ (k, v) :: after) !! k = Some v
  /\ (k ∉ before.*1 -> fromEntries (before ++ after) !! k = None).
Proof.
  intros Hk. unfold fromEntries. split.
  - rewrite fold_left_app. cbn [fold_left]. rewrite fromEntries_fold_other by done.
    apply lookup_insert_eq.
  - intros Hb. rewrite fromEntries_fold_other; [done|].
    rewrite fmap_app. intros [H|H]%elem_of_app; contradiction.
Qed.

Lemma fromEntries_last_entry_witness :
  fromEntries ([("server", "nginx"); ("content-type", "text/plain")]
               ++ ("server", "cloudflare") :: [("date", "today")]) !! "server"
  = Some "cloudflare".
Proof.
  apply (fromEntries_last_entry
           [("server", "nginx"); ("content-type", "text/plain")]
           [("date", "today")] "server" "cloudflare").
  simpl. rewrite elem_of_cons, elem_of_nil. intuition discriminate.
Defined.

(** X14: the enricher records the status and the headers of every response
    and reads the body only of a 200 that declares HTML. For any other
    response (a redirect, an error status, another content type) the record
    gets no HTTPBody and no HTTPError, whatever reading the body would have
    given; for a 200 that declares HTML whose body reads, the body is
    stored. *)
Theorem enrichHTTPS_records_response
    (env : Env) (row : Row) (url : string) (res : Response) :
  isExcluded row = false ->
  newURL env ("https://" +:+ Domain row) = inr url ->
  fetch env url = inr res ->
  exists row',
    enrichHTTPS env (Fulfilled row) = Fulfilled row'
    /\ HTTPStatus row' = Some (status res)
    /\ HTTPHeaders row' = Some (fromEntries (headers res))
    /\ (declaresHTML res = false ->
        row' = setHTTPHeaders (Some (fromEntries (headers res)))
                 (setHTTPStatus (Some (status res)) row))
    /\ (declaresHTML res = true -> forall body, text res = inr body ->
        HTTPBody row' = Some body /\ HTTPError row' = HTTPError row).
Proof.
  intros Hx Hurl Hres. unfold enrichHTTPS. simpl await. rewrite Hx, Hurl, Hres.
  unfold header. cbn [HTTPHeaders setHTTPHeaders]. fold (declaresHTML res).
  destruct (declaresHTML res).
  - destruct (text res) as [e|body]; eexists; (split; [reflexivity|]);
      (split; [done|]); (split; [done|]); (split; [done|]).
    + by intros _ body' [=].
    + by intros _ body' [= <-].
  - eexists. split; [reflexivity|]. split; [done|]. split; [done|]. by split.
Qed.

Lemma enrichHTTPS_records_response_witness :
  let res := mkResponse 301 [("location", "https://www.example.com/")]
               (inr "moved") in
  let env := Scenario.network (inr []) (inr res) in
  exists row',
    enrichHTTPS env (Fulfilled (freshRow "example.com")) = Fulfilled row'
    /\ HTTPStatus row' = Some 301
    /\ HTTPBody row' = None /\ HTTPError row' = None.
Proof.
  intros res env.
  destruct (enrichHTTPS_records_response env (freshRow "example.com")
              "https://example.com" res eq_refl eq_refl eq_refl)
    as (row' & Hrow' & Hst & _ & Hother & _).
  exists row'. split; [exact Hrow'|]. split; [exact Hst|].
  rewrite (Hother eq_refl). split; reflexivity.
Defined.

(** ** The CDN classifier, once more *)

Section CDNMore.




End CDNMore.







(** ** The sorter, once more *)

Section Stability.
Context {A : Type} (cmp : A -> A -> Z) (tie : A -> bool).
Hypothesis tie_equal : forall x y, tie x = true -> tie y = true -> cmp x y <= 0.

Lemma insertBy_tie x l :
  List.filter tie (insertBy cmp x l) = List.filter tie (x :: l).
Proof.
  induction l as [|y l IH]; [done|]. cbn [insertBy].
  destruct (Z.leb_spec (cmp x y) 0) as [Hxy|Hxy]; [done|].
  cbn [List.filter] in *. rewrite IH.
  destruct (tie x) eqn:Tx, (tie y) eqn:Ty; try done.
  pose proof (tie_equal x y Tx Ty). lia.
Qed.

Lemma sortBy_tie l : List.filter tie (sortBy cmp l) = List.filter tie l.
Proof.
  induction l as [|x l IH]; [done|]. cbn [sortBy].
  rewrite insertBy_tie. cbn [List.filter]. by rewrite IH.
Qed.

End Stability.

(** X18: the records without a Parent (absent or empty) keep the order of
    the input among themselves: the comparator calls any two of them equal
    and the sort is stable. The same holds for the records of one Parent
    that the collation calls equal to itself. *)
Theorem sort_keeps_input_order_of_ties (env : Env) (rows : list Row) :
  List.filter (fun r => negb (Js.truthy (Parent r))) (sortBy (compareParent env) rows)
  = List.filter (fun r => negb (Js.truthy (Parent r))) rows
  /\ forall p, p <> EmptyString -> localeCompare env p p <= 0 ->
       List.filter (fun r => Js.strictEq (Parent r) p) (sortBy (compareParent env) rows)
       = List.filter (fun r => Js.strictEq (Parent r) p) rows.
Proof.
  split.
  - apply sortBy_tie. intros x y Hx Hy. unfold compareParent.
    by rewrite Hx, Hy.
  - intros p Hp Hpp. apply sortBy_tie. intros x y Hx Hy. unfold compareParent.
    destruct (Parent x) as [px|]; [|done]. destruct (Parent y) as [py|]; [|done].
    simpl in Hx, Hy. apply String.eqb_eq in Hx as ->, Hy as ->.
    simpl. destruct (String.eqb_spec p EmptyString); [done|]. done.
Qed.

(** ** The content classifier, once more *)

Section ContentMore.

Lemma search_aem s : Re.search Fingerprint.aem s = true <-> hasClientlibsPath s.
Proof.
  rewrite ReFacts.search_lang. unfold hasClientlibsPath, Fingerprint.aem.
  change (Re.cats [Re.lit "/etc"; Re.Dot; Re.lit "clientlibs/"])
    with (Re.Cat (Re.lit "/etc") (Re.Cat Re.Dot (Re.lit "clientlibs/"))).
  split.
  - intros (pre & w & post & -> & (s1 & s2 & -> & ->%ReFacts.lang_lit
                                   & (s3 & s4 & -> & (c & -> & Hc)%ReFacts.lang_Dot_inv
                                      & ->%ReFacts.lang_lit)%ReFacts.lang_Cat_inv)
                                  %ReFacts.lang_Cat_inv).
    exists pre, c, post. split; [|done].
    by rewrite !ReFacts.app_assoc.
  - intros (pre & c & post & -> & Hc).
    exists pre, ("/etc" +:+ String c "clientlibs/"), post.
    split; [by rewrite !ReFacts.app_assoc|].
    constructor; [by apply ReFacts.lang_lit|].
    apply (Re.LCat Re.Dot _ (String c EmptyString) "clientlibs/");
      [by constructor|by apply ReFacts.lang_lit].
Qed.

Lemma search_rum s : Re.search Fingerprint.rum s = true <-> hasRumScript s.
Proof. apply ReFacts.search_lit. Qed.

Lemma search_helix_path s : Re.search Fingerprint.helix s = true <-> hasHelixPath s.
Proof. apply ReFacts.search_helix. Qed.

End ContentMore.

(** X19: the content classifier writes Source and touches nothing else but
    HTTPBody and HTTPHeaders; these two it either keeps as they are or, for
    the Helix and AEM outcomes only, deletes together. In particular the RUM
    and Other outcomes keep the body and the headers on the record. *)
Theorem enrichHTML_frame (row : Row) :
  exists row',
    enrichHTML (Fulfilled row) = Fulfilled row'
    /\ row' = setHTTPHeaders (HTTPHeaders row')
                (setHTTPBody (HTTPBody row') (setSource (Source row') row))
    /\ ((HTTPBody row' = HTTPBody row /\ HTTPHeaders row' = HTTPHeaders row)
        \/ (HTTPBody row' = None /\ HTTPHeaders row' = None
            /\ (Source row' = Some "Helix" \/ Source row' = Some "AEM"))).
Proof.
  unfold enrichHTML. simpl await.
  repeat match goal with
         | |- context [if ?b then _ else _] => destruct b
         end;
    eexists; (split; [reflexivity|]); destruct row; cbn; (split; [reflexivity|]);
    auto 6.
Qed.

(** X20: what decides the label, said of the body itself. For a record that
    is not excluded and has a body: Unverified exactly for the empty body;
    Helix exactly when the body has the media path; AEM exactly when it has
    the clientlibs path and not the media path; RUM exactly when it has the
    RUM script path and neither of the two; Other exactly when it is not
    empty and has none of the three. *)
Theorem enrichHTML_by_content (row : Row) (body : string) :
  isExcluded row = false -> HTTPBody row = Some body ->
  exists row',
    enrichHTML (Fulfilled row) = Fulfilled row'
    /\ (Source row' = Some "Unverified" <-> body = EmptyString)
    /\ (Source row' = Some "Helix" <-> hasHelixPath body)
    /\ (Source row' = Some "AEM" <-> ~ hasHelixPath body /\ hasClientlibsPath body)
    /\ (Source row' = Some "RUM" <->
        ~ hasHelixPath body /\ ~ hasClientlibsPath body /\ hasRumScript body)
    /\ (Source row' = Some "Other" <->
        body <> EmptyString /\ ~ hasHelixPath body /\ ~ hasClientlibsPath body
        /\ ~ hasRumScript body).
Proof.
  intros Hx Hb.
  pose proof (search_helix_path body) as Hh.
  pose proof (search_aem body) as Ha.
  pose proof (search_rum body) as Hr.
  destruct (String.eqb_spec body EmptyString) as [->|Hne].
  - exists (setSource (Some "Unverified") row). split.
    + apply enrichHTML_unverified; [done|by rewrite Hb].
    + cbn [Source setSource].
      assert (Re.search Fingerprint.helix EmptyString = false) as E1 by (by vm_compute).
      assert (Re.search Fingerprint.aem EmptyString = false) as E2 by (by vm_compute).
      assert (Re.search Fingerprint.rum EmptyString = false) as E3 by (by vm_compute).
      rewrite E1 in Hh. rewrite E2 in Ha. rewrite E3 in Hr.
      repeat split; intros; intuition (discriminate || congruence).
  - destruct (enrichHTML_body row body Hx Hb Hne) as (row' & Hrow' & Hcls).
    exists row'. split; [done|]. unfold byFingerprint in Hcls.
    destruct (Re.search Fingerprint.helix body).
    { destruct Hcls as (Hs & _). rewrite Hs.
      repeat split; intros; intuition (discriminate || congruence). }
    destruct (Re.search Fingerprint.aem body).
    { rewrite Hcls. repeat split; intros; intuition (discriminate || congruence). }
    destruct (Re.search Fingerprint.rum body);
      rewrite Hcls; repeat split; intros; intuition (discriminate || congruence).
Qed.

Lemma enrichHTML_by_content_witness :
  let body := "<script src=/.rum/@adobe/helix-rum-js@^1/src/index.js></script>" in
  exists row',
    enrichHTML (Fulfilled (setHTTPBody (Some body) (freshRow "www.example.com")))
    = Fulfilled row'
    /\ (Source row' = Some "RUM" <->
        ~ hasHelixPath body /\ ~ hasClientlibsPath body /\ hasRumScript body).
Proof.
  intros body.
  destruct (enrichHTML_by_content
              (setHTTPBody (Some body) (freshRow "www.example.com")) body
              eq_refl eq_refl) as (row' & Hrow' & _ & _ & _ & Hrum & _).
  exists row'. exact (conj Hrow' Hrum).
Defined.

(** ** The TSV writer *)

Section WriterFacts.
Import Writer.

Lemma countUnit_app c s t : countUnit c (s +:+ t) = (countUnit c s + countUnit c t)%nat.
Proof.
  induction s as [|a s IH]; [done|]. rewrite ReFacts.app_cons. simpl.
  rewrite IH. lia.
Qed.

Lemma join_count c sep parts :
  Forall (fun p => countUnit c p = O) parts ->
  countUnit c (join sep parts) = ((length parts - 1) * countUnit c sep)%nat.
Proof.
  induction 1 as [|p parts Hp Hparts IH]; [done|].
  destruct parts as [|q parts]; [simpl; lia|].
  change (join sep (p :: q :: parts)) with (p +:+ sep +:+ join sep (q :: parts)).
  rewrite !countUnit_app, IH, Hp. simpl. lia.
Qed.

Lemma fold_lines {B} (f : B -> string) (objs : list B) (init : string) :
  fold_left (fun tsv obj => tsv +:+ f obj +:+ String newline EmptyString) objs init
  = init +:+ concatLines (map f objs).
Proof.
  revert init. induction objs as [|obj objs IH]; intros init; simpl.
  - by rewrite ReFacts.app_nil_r.
  - rewrite IH. by rewrite !ReFacts.app_assoc.
Qed.

Lemma toTSV_lines objs cols :
  toTSV objs cols =
  concatLines (join (String Reader.tab EmptyString) cols
               :: map (fun obj => join (String Reader.tab EmptyString)
                                    (map (cell obj) cols)) objs).
Proof.
  unfold toTSV. rewrite fold_lines. simpl. by rewrite !ReFacts.app_assoc.
Qed.

Lemma string_of_uint_nonempty d : NilZero.string_of_uint d <> EmptyString.
Proof. by destruct d. Qed.

Lemma string_of_int_nonempty d : NilZero.string_of_int d <> EmptyString.
Proof. destruct d as [d|d]; [apply string_of_uint_nonempty|done]. Qed.

End WriterFacts.

(** X21: the TSV is a rectangular table: when no column name and no cell
    text holds a tab or a newline, the text is a sequence of lines, each
    ended by a newline, one for the header and one per object in order, and
    every line has one tab less than there are columns. *)
Theorem toTSV_table (objs : list (gmap string Writer.JsValue)) (cols : list string) :
  Forall oneCell cols ->
  Forall (fun obj => Forall (fun col => oneCell (Writer.cell obj col)) cols) objs ->
  exists lines,
    Writer.toTSV objs cols = concatLines lines
    /\ length lines = S (length objs)
    /\ Forall (fun l => countUnit Writer.newline l = O
                        /\ countUnit Reader.tab l = (length cols - 1)%nat) lines.
Proof.
  intros Hcols Hobjs. eexists. split; [apply toTSV_lines|].
  split; [simpl; by rewrite length_map|].
  assert (forall parts, Forall oneCell parts ->
            countUnit Writer.newline (Writer.join (String Reader.tab EmptyString) parts) = O
            /\ countUnit Reader.tab (Writer.join (String Reader.tab EmptyString) parts)
               = (length parts - 1)%nat) as Hline.
  { intros parts Hp. split.
    - rewrite join_count; [simpl; lia|]. eapply Forall_impl; [exact Hp|]. by intros ? [_ ?].
    - rewrite join_count; [simpl; lia|]. eapply Forall_impl; [exact Hp|]. by intros ? [? _]. }
  constructor; [by apply Hline|].
  apply Forall_forall. intros l Hl.
  apply list_elem_of_fmap in Hl as (obj & -> & Hobj).
  rewrite Forall_forall in Hobjs. specialize (Hobjs obj Hobj).
  rewrite <- (length_map (Writer.cell obj) cols). apply Hline.
  by apply Forall_fmap.
Qed.

Lemma toTSV_table_witness :
  let objs := [ {[ "Domain" := Writer.VString "www.example.com";
                   "HTTPStatus" := Writer.VNumber 200;
                   "Comment" := Writer.VString "Removed path from domain" ]};
                {[ "Domain" := Writer.VString "localhost";
                   "Parent" := Writer.VNull ]} ] in
  exists lines,
    Writer.toTSV objs Writer.columns = concatLines lines
    /\ length lines = 3%nat
    /\ Forall (fun l => countUnit Writer.newline l = O
                        /\ countUnit Reader.tab l = 5%nat) lines.
Proof.
  intros objs.
  apply (toTSV_table objs Writer.columns).
  - repeat constructor.
  - repeat constructor.
Defined.

(** X22: for a column name that the prototype of objects does not define,
    and a property that is absent or holds a value of one of the kinds of
    [JsValue]: the cell is empty exactly when the property is absent or
    undefined, [false], the number 0, the empty string, or an object whose
    JSON text is empty; [null] is not among them: it is written as the text
    "null". *)
Theorem toTSV_cell_empty (obj : gmap string Writer.JsValue) (col : string) :
  col ∉ inheritedNames ->
  (Writer.cell obj col = EmptyString <->
   obj !! col = None \/ obj !! col = Some Writer.VUndefined
   \/ obj !! col = Some (Writer.VBoolean false)
   \/ obj !! col = Some (Writer.VNumber 0)
   \/ obj !! col = Some (Writer.VString EmptyString)
   \/ obj !! col = Some (Writer.VObject EmptyString))
  /\ (obj !! col = Some Writer.VNull -> Writer.cell obj col = "null").
Proof.
  intros _. unfold Writer.cell. split; [|by intros ->].
  destruct (obj !! col) as [[| |[]|n|s|json]|]; simpl; try (intuition congruence).
  destruct (Z.eqb_spec n 0) as [->|Hn]; [intuition congruence|].
  split; [by intros ?%string_of_int_nonempty|]. intuition congruence.
Qed.

Lemma toTSV_cell_empty_witness :
  Writer.cell {[ "Domain" := Writer.VString "localhost"; "Parent" := Writer.VNull ]}
              "Parent" = "null".
Proof.
  apply (toTSV_cell_empty
           {[ "Domain" := Writer.VString "localhost"; "Parent" := Writer.VNull ]}
           "Parent").
  - unfold inheritedNames. rewrite !elem_of_cons, elem_of_nil. intuition discriminate.
  - reflexivity.
Defined.

(** ** The suffix resolver and the dev-domain check *)

(** X23: for a record that the port check and the IP check did not exclude,
    the public-suffix parser is asked about the normalised domain: Parent
    and TLD are its two answers; and the record leaves the synchronous
    stages excluded exactly when one of the two is a listed development
    name, then with the comment "Development domain excluded". *)
Theorem prepare_resolves_normalized_domain (env : Env) (row : Row) :
  isExcluded (flagIP (flagPorts (cleanupTrailingDot row))) = false ->
  Parent (prepare env row) = domain (pslParse env (normalize (Domain row)))
  /\ TLD (prepare env row) = tld (pslParse env (normalize (Domain row)))
  /\ (isExcluded (prepare env row) = true <->
      includes devParents (domain (pslParse env (normalize (Domain row))))
      || includes devParents (tld (pslParse env (normalize (Domain row)))) = true)
  /\ (isExcluded (prepare env row) = true ->
      Comment (prepare env row) = Some devComment).
Proof.
  intros Hx. unfold prepare.
  set (r := flagIP (flagPorts (cleanupTrailingDot row))) in *.
  assert (Domain r = normalize (Domain row)) as HD.
  { unfold r.
    assert (forall r, Domain (flagIP r) = Domain r) as ->.
    { intros r'; unfold flagIP. destruct (isExcluded r'); [done|]. by destruct (_ || _). }
    rewrite flagPorts_Domain, cleanupTrailingDot_Domain, normalize_unfold. done. }
  unfold flagParent. rewrite Hx. cbn [Domain setParent]. rewrite HD. unfold flagDev.
  cbn [Parent TLD setParent setTLD].
  destruct (_ || _); cbn [Parent TLD Comment setParent setTLD setComment setSource].
  - repeat split; done.
  - unfold isExcluded in *. cbn [Source setParent setTLD]. rewrite Hx.
    repeat split; done.
Qed.

Lemma prepare_resolves_normalized_domain_witness :
  let env := mkEnv (fun d => mkPsl (Some "github.com") (Some "com"))
               Scenario.codeUnitCompare (fun _ => inl Scenario.notFound)
               (fun href => inr href) (fun _ => inl Scenario.fetchFailed) in
  Parent (prepare env (freshRow "octocat.github.com.")) = Some "github.com"
  /\ isExcluded (prepare env (freshRow "octocat.github.com.")) = true
  /\ Comment (prepare env (freshRow "octocat.github.com.")) = Some devComment.
Proof.
  intros env.
  destruct (prepare_resolves_normalized_domain env (freshRow "octocat.github.com.") eq_refl)
    as (HP & _ & Hdev & HC).
  assert (isExcluded (prepare env (freshRow "octocat.github.com.")) = true) as Hx
    by (apply Hdev; reflexivity).
  exact (conj HP (conj Hx (HC Hx))).
Defined.
